(** * The [Boat] controller of keelson-connector-mavlink (src/bin/boat.py)

    A shallow embedding of the [Boat] class: the object's private fields
    are a record, the MAVLink connection is a script of receive results
    together with a chronological trace of everything the object does
    (receives, sends, prints), and every method is a computation in a
    small state monad over that world. *)

From Stdlib Require Import ZArith List String Ascii Bool Lia.
Import ListNotations.
Open Scope Z_scope.

(** ** Enumerations *)

Module Status.
Inductive t := UNDEFINED | ARMED | DISARMED | EMERGENCY.

Definition value (s : t) : Z :=
  match s with
  | UNDEFINED => -1
  | ARMED => 0
  | DISARMED => 1
  | EMERGENCY => 2
  end.
End Status.

Module ControlAuthority.
Inductive t := UNDEFINED | MANUAL | REMOTE | AUTOMATIC.

Definition value (a : t) : Z :=
  match a with
  | UNDEFINED => -1
  | MANUAL => 0
  | REMOTE => 1
  | AUTOMATIC => 2
  end.

(* Enum members are singletons: [==] and [!=] compare identities. *)
Definition eqb (a b : t) : bool :=
  match a, b with
  | UNDEFINED, UNDEFINED | MANUAL, MANUAL
  | REMOTE, REMOTE | AUTOMATIC, AUTOMATIC => true
  | _, _ => false
  end.
End ControlAuthority.

(** ** Python values handed to the setters, and the builtin [int()] *)

(* A value handed to a setter, as far as the class looks at it: the class
   does nothing with the value but hand it to [int()] and print it.  The
   value is an int, or any other object (a string, a float, None, ...),
   which is given by what the builtin [int()] makes of it: the integer it
   returns, or [None] when it raises. *)
Inductive pyval :=
| PyInt (z : Z)
| PyObject (as_int : option Z).

Module PyBuiltin.

(* [int(v)]: [None] stands for the TypeError / ValueError / OverflowError
   the builtin raises. *)
Definition int (v : pyval) : option Z :=
  match v with
  | PyInt z => Some z
  | PyObject as_int => as_int
  end.

(* [max(a, b)] and [min(a, b)] on integers. *)
Definition max (a b : Z) : Z := if b >? a then b else a.
Definition min (a b : Z) : Z := if b <? a then b else a.

End PyBuiltin.

(** ** The MAVLink side *)

Inductive msg_type := HEARTBEAT_t | RC_CHANNELS_t.

(* The two telemetry messages the class consumes.  [chan11_raw = None]
   covers both a message without the attribute and an attribute that is
   [None]: the source maps the former to the latter. *)
Inductive message :=
| HEARTBEAT (base_mode custom_mode : Z)
| RC_CHANNELS (chan11_raw : option Z).

Definition type_of (m : message) : msg_type :=
  match m with
  | HEARTBEAT _ _ => HEARTBEAT_t
  | RC_CHANNELS _ => RC_CHANNELS_t
  end.

Definition msg_type_eqb (a b : msg_type) : bool :=
  match a, b with
  | HEARTBEAT_t, HEARTBEAT_t | RC_CHANNELS_t, RC_CHANNELS_t => true
  | _, _ => false
  end.

(* mavutil.mavlink.MAV_MODE_FLAG_SAFETY_ARMED *)
Definition MAV_MODE_FLAG_SAFETY_ARMED : Z := 128.

Inductive mav_cmd :=
| MAV_CMD_COMPONENT_ARM_DISARM
| MAV_CMD_DO_SET_RELAY
| MAV_CMD_DO_SET_SERVO.

(* What the object hands to [vehicle.mav]: a COMMAND_LONG with its
   confirmation and seven parameters, or an RC_CHANNELS_OVERRIDE with its
   eight channel slots. *)
Inductive packet :=
| COMMAND_LONG (target_system target_component : Z) (command : mav_cmd)
               (confirmation : Z) (params : list Z)
| RC_CHANNELS_OVERRIDE (target_system target_component : Z) (chans : list Z).

(* Lines written to standard output. *)
Inductive line :=
| Connecting_to_vehicle_on (cs : string)
| Authority_value (v : Z)
| Should_allow_rc_override
| RC_Channel_11_value (v : Z)
| CONTROL_AUTHORITY_UPDATED_TO_REMOTE
| CONTROL_AUTHORITY_UPDATED_TO_MANUAL
| RC_Channel_11_value_not_available
| Waiting_for_vehicle_heartbeat
| Heartbeat_received
| Arming_vehicle
| VEHICLE_ARMED
| DISARMING_VEHICLE
| VEHICLE_DISARMED
| No_heartbeat_message_received
| Connection_closed
| Relay_turned_on (n : Z)
| Relay_turned_off (n : Z)
| EMERGENCY_STOP_DISABLING_PROPULSION
| DISABLING_PROPULSION
| ENABLING_PROPULSION
| Vehicle_not_connected
| Invalid_steering_value (v : pyval)
| Steering_set_to (v : pyval)
| Throttle_set_to (v : pyval)
| Overriding_RC_channels_currently_disabled
| Updated_steering (rudder throttle : Z)
| Set_servo_to_PWM (servo pwm : Z).

Inductive event :=
| Printed (l : line)
| Received (t : msg_type) (r : option message)
| Sent (p : packet)
| Closed.

(* One receive window of the link: what a blocking receive finds in it,
   and the addressing the connection object has once that receive is over
   (the library sets it from the traffic it reads, so it is part of what
   the link delivers). *)
Record window := mkWindow {
  arrives : option message;
  system_after : Z;
  component_after : Z
}.

(* The connection object: its two addressing attributes and the receive
   windows still to come. *)
Record Vehicle := mkVehicle {
  target_system : Z;
  target_component : Z;
  telemetry : list window
}.

(* The connection object once one more receive window has gone by. *)
Definition after_receive (v : Vehicle) : Vehicle :=
  match telemetry v with
  | win :: rest => mkVehicle (system_after win) (component_after win) rest
  | [] => mkVehicle (target_system v) (target_component v) []
  end.

(** ** The object's fields *)

Record Boat := mkBoat {
  connection_string : string;
  baud : Z;
  connected : bool;
  heartbeat_received : bool;
  confirm_commands : bool;
  current_rudder_value : Z;
  current_throttle_value : Z;
  last_command_sent : option packet;
  mode_switch : option Z;
  status : Status.t;
  control_authority : ControlAuthority.t;
  (* public attribute created by the first poll that sees a message:
     [None] while it does not exist *)
  rc_channel_11_value : option (option Z)
}.

Record World := mkWorld {
  self : Boat;
  vehicle : Vehicle;
  trace : list event
}.

Definition set_connected (x : bool) (b : Boat) : Boat :=
  mkBoat (connection_string b) (baud b) x (heartbeat_received b)
         (confirm_commands b) (current_rudder_value b)
         (current_throttle_value b) (last_command_sent b) (mode_switch b)
         (status b) (control_authority b) (rc_channel_11_value b).

Definition set_heartbeat_received (x : bool) (b : Boat) : Boat :=
  mkBoat (connection_string b) (baud b) (connected b) x
         (confirm_commands b) (current_rudder_value b)
         (current_throttle_value b) (last_command_sent b) (mode_switch b)
         (status b) (control_authority b) (rc_channel_11_value b).

Definition set_current_rudder_value (x : Z) (b : Boat) : Boat :=
  mkBoat (connection_string b) (baud b) (connected b) (heartbeat_received b)
         (confirm_commands b) x
         (current_throttle_value b) (last_command_sent b) (mode_switch b)
         (status b) (control_authority b) (rc_channel_11_value b).

Definition set_current_throttle_value (x : Z) (b : Boat) : Boat :=
  mkBoat (connection_string b) (baud b) (connected b) (heartbeat_received b)
         (confirm_commands b) (current_rudder_value b)
         x (last_command_sent b) (mode_switch b)
         (status b) (control_authority b) (rc_channel_11_value b).

Definition set_status (x : Status.t) (b : Boat) : Boat :=
  mkBoat (connection_string b) (baud b) (connected b) (heartbeat_received b)
         (confirm_commands b) (current_rudder_value b)
         (current_throttle_value b) (last_command_sent b) (mode_switch b)
         x (control_authority b) (rc_channel_11_value b).

Definition set_control_authority (x : ControlAuthority.t) (b : Boat) : Boat :=
  mkBoat (connection_string b) (baud b) (connected b) (heartbeat_received b)
         (confirm_commands b) (current_rudder_value b)
         (current_throttle_value b) (last_command_sent b) (mode_switch b)
         (status b) x (rc_channel_11_value b).

Definition set_rc_channel_11_value (x : option Z) (b : Boat) : Boat :=
  mkBoat (connection_string b) (baud b) (connected b) (heartbeat_received b)
         (confirm_commands b) (current_rudder_value b)
         (current_throttle_value b) (last_command_sent b) (mode_switch b)
         (status b) (control_authority b) (Some x).

(** ** A state monad over the world *)

Definition M (A : Type) : Type := World -> A * World.

Definition ret {A} (a : A) : M A := fun w => (a, w).

Definition bind {A B} (m : M A) (k : A -> M B) : M B :=
  fun w => let (a, w') := m w in k a w'.

Declare Scope boat_scope.
Delimit Scope boat_scope with boat.
Notation "x <- m ;; k" := (bind m (fun x => k))
  (at level 61, m at next level, right associativity) : boat_scope.
Notation "m ;; k" := (bind m (fun _ => k))
  (at level 61, right associativity) : boat_scope.
Open Scope boat_scope.

(* read a field of [self] *)
Definition get {A} (f : Boat -> A) : M A := fun w => (f (self w), w).

(* assign to a field of [self] *)
Definition assign (f : Boat -> Boat) : M unit :=
  fun w => (tt, mkWorld (f (self w)) (vehicle w) (trace w)).

Definition log (e : event) : M unit :=
  fun w => (tt, mkWorld (self w) (vehicle w) (trace w ++ [e])).

Definition print (l : line) : M unit := log (Printed l).

Definition target : M (Z * Z) :=
  fun w => ((target_system (vehicle w), target_component (vehicle w)), w).

(* [vehicle.recv_match(type=t, blocking=True, timeout=1)]: the next receive
   window is used up; it yields its message when that has the wanted type
   and [None] otherwise (also once the script is exhausted).  The script
   is that of a link in use: what the library does with a receive on a
   connection that was closed is not part of it. *)
Definition recv_match (t : msg_type) : M (option message) :=
  fun w =>
    let v := vehicle w in
    let r := match telemetry v with
             | win :: _ =>
                 match arrives win with
                 | Some m => if msg_type_eqb (type_of m) t then Some m else None
                 | None => None
                 end
             | [] => None
             end in
    (r, mkWorld (self w) (after_receive v) (trace w ++ [Received t r])).

Definition command_long_send (c : mav_cmd) (confirmation : Z) (params : list Z) : M unit :=
  ts <- target ;;
  log (Sent (COMMAND_LONG (fst ts) (snd ts) c confirmation params)).

Definition rc_channels_override_send (chans : list Z) : M unit :=
  ts <- target ;;
  log (Sent (RC_CHANNELS_OVERRIDE (fst ts) (snd ts) chans)).

(** ** The methods of [Boat] *)

Import ControlAuthority (MANUAL, REMOTE, AUTOMATIC).

(* How a public call ends: it returns, it raises, or (a receive without
   timeout on a silent link) it never comes back. *)
Inductive completion := Returned | Raised_NotImplementedError | Blocked.

Definition __connect : M unit :=
  cs <- get connection_string ;;
  print (Connecting_to_vehicle_on cs).

Definition is_armed : M bool :=
  heartbeat <- recv_match HEARTBEAT_t ;;
  match heartbeat with
  | Some (HEARTBEAT base_mode _) =>
      let armed := Z.land base_mode MAV_MODE_FLAG_SAFETY_ARMED in
      ret (negb (armed =? 0))
  | Some (RC_CHANNELS _) => ret false (* not reached: the receive filters on the type *)
  | None =>
      print No_heartbeat_message_received ;;
      ret false
  end.

Definition get_flight_mode : M (option Z) :=
  heartbeat <- recv_match HEARTBEAT_t ;;
  match heartbeat with
  | Some (HEARTBEAT _ mode_id) => ret (Some mode_id)
  | Some (RC_CHANNELS _) => ret None (* not reached *)
  | None =>
      print No_heartbeat_message_received ;;
      ret None
  end.

Definition opt_eqb (o : option Z) (z : Z) : bool :=
  match o with
  | Some x => x =? z
  | None => false
  end.

Definition __init__ (connection_string : string) (baud : Z) (v : Vehicle) : World :=
  (* [__status] and [__control_authority] do not exist before their first
     assignment below; the record carries UNDEFINED until then *)
  let fresh := mkBoat connection_string baud false false false 1500 1500 None None
                      Status.UNDEFINED ControlAuthority.UNDEFINED None in
  snd ((__connect ;;
        armed <- is_armed ;;
        assign (set_status (if armed then Status.ARMED else Status.UNDEFINED)) ;;
        current_flight_mode <- get_flight_mode ;;
        (if opt_eqb current_flight_mode 0 then assign (set_control_authority MANUAL)
         else if opt_eqb current_flight_mode 1 then assign (set_control_authority REMOTE)
         else if opt_eqb current_flight_mode 2 then assign (set_control_authority AUTOMATIC)
         else assign (set_control_authority ControlAuthority.UNDEFINED)) ;;
        assign (set_control_authority REMOTE))
       (mkWorld fresh v [])).

Definition __poll_rc_mode_switch : M unit :=
  message <- recv_match RC_CHANNELS_t ;;
  match message with
  | Some m =>
      let chan11 := match m with
                    | RC_CHANNELS chan11_raw => chan11_raw
                    | HEARTBEAT _ _ => None
                    end in
      assign (set_rc_channel_11_value chan11) ;;
      match chan11 with
      | Some v =>
          print (RC_Channel_11_value v) ;;
          a <- get control_authority ;;
          if (v >? 1500) && negb (ControlAuthority.eqb a REMOTE) then
            assign (set_control_authority REMOTE) ;;
            print CONTROL_AUTHORITY_UPDATED_TO_REMOTE
          else if (v <? 1500) && negb (ControlAuthority.eqb a MANUAL) then
            assign (set_control_authority MANUAL) ;;
            print CONTROL_AUTHORITY_UPDATED_TO_MANUAL
          else ret tt
      | None => print RC_Channel_11_value_not_available
      end
  | None => ret tt
  end.

Definition __should_allow_rc_override : M bool :=
  a <- get control_authority ;;
  (if ControlAuthority.eqb a ControlAuthority.UNDEFINED
   then __poll_rc_mode_switch else ret tt) ;;
  a <- get control_authority ;;
  print (Authority_value (ControlAuthority.value a)) ;;
  a <- get control_authority ;;
  ret (negb (ControlAuthority.value a =? 0)).

Definition __update_steering : M unit :=
  rudder <- get current_rudder_value ;;
  throttle <- get current_throttle_value ;;
  print (Updated_steering rudder throttle) ;;
  rudder <- get current_rudder_value ;;
  throttle <- get current_throttle_value ;;
  rc_channels_override_send [rudder; throttle; throttle; 0; 0; 0; 0; 0].

Definition __keep_alive_rc_override : M unit := __update_steering.

Definition check_rc_mode : M unit :=
  __poll_rc_mode_switch ;;
  allow <- __should_allow_rc_override ;;
  if allow then
    print Should_allow_rc_override ;;
    __keep_alive_rc_override
  else ret tt.

(* [vehicle.wait_heartbeat()] has no timeout: receive windows go by until
   one holds a heartbeat.  The answer is that heartbeat, or [None] when
   the windows run out first, with the connection object as the windows
   gone by leave it. *)
Fixpoint wait_heartbeat (system component : Z) (tel : list window)
  : option message * Vehicle :=
  match tel with
  | [] => (None, mkVehicle system component [])
  | win :: rest =>
      match arrives win with
      | Some (HEARTBEAT b c) =>
          (Some (HEARTBEAT b c),
           mkVehicle (system_after win) (component_after win) rest)
      | _ => wait_heartbeat (system_after win) (component_after win) rest
      end
  end.

Definition wait_for_heartbeat : M completion :=
  print Waiting_for_vehicle_heartbeat ;;
  fun w =>
    let v := vehicle w in
    match wait_heartbeat (target_system v) (target_component v) (telemetry v) with
    | (Some m, v') =>
        ((log (Received HEARTBEAT_t (Some m)) ;;
          assign (set_heartbeat_received true) ;;
          assign (set_connected true) ;;
          print Heartbeat_received ;;
          ret Returned)
           (mkWorld (self w) v' (trace w)))
    | (None, v') => (Blocked, mkWorld (self w) v' (trace w))
    end.

Definition arm_vehicle : M bool :=
  print Arming_vehicle ;;
  command_long_send MAV_CMD_COMPONENT_ARM_DISARM 0 [1; 0; 0; 0; 0; 0; 0] ;;
  armed <- is_armed ;;
  if armed then
    assign (set_status Status.ARMED) ;;
    print VEHICLE_ARMED ;;
    ret true
  else ret false.

Definition disarm_vehicle : M bool :=
  print DISARMING_VEHICLE ;;
  command_long_send MAV_CMD_COMPONENT_ARM_DISARM 0 [0; 0; 0; 0; 0; 0; 0] ;;
  armed <- is_armed ;;
  if negb armed then
    assign (set_status Status.DISARMED) ;;
    print VEHICLE_DISARMED ;;
    ret true
  else ret false.

Definition set_speed (speed : pyval) : M unit := ret tt.

Definition change_heading (heading : pyval) : M unit := ret tt.

Definition close_connection : M unit :=
  (* the connection object exists from the constructor on, and is truthy *)
  log Closed ;;
  assign (set_connected false) ;;
  print Connection_closed.

Definition set_relay_on (relay_number : Z) : M unit :=
  command_long_send MAV_CMD_DO_SET_RELAY 0 [relay_number; 1; 0; 0; 0; 0; 0] ;;
  print (Relay_turned_on (relay_number + 1)).

Definition set_relay_off (relay_number : Z) : M unit :=
  command_long_send MAV_CMD_DO_SET_RELAY 0 [relay_number; 0; 0; 0; 0; 0; 0] ;;
  print (Relay_turned_off (relay_number + 1)).

Definition disable_propulsion : M unit :=
  print DISABLING_PROPULSION ;;
  set_relay_off 1.

Definition emergency_stop : M unit :=
  print EMERGENCY_STOP_DISABLING_PROPULSION ;;
  disable_propulsion.

Definition enable_propulsion : M unit :=
  print ENABLING_PROPULSION ;;
  set_relay_on 1.

(* The body of the [try] block of a setter: [None] when one of its
   [int()] calls raises, which the bare [except] catches. *)
Definition try_store (store : Z -> Boat -> Boat) (value : pyval) (b : Boat)
  : option Boat :=
  match PyBuiltin.int value with
  | None => None
  | Some received_value =>
      if (received_value >=? 1100) && (received_value <=? 1900) then
        match PyBuiltin.int value with
        | None => None
        | Some z => Some (store z b)
        end
      else Some b
  end.

Definition set_rudder (steering_value : pyval) : M unit :=
  c <- get connected ;;
  if negb c then print Vehicle_not_connected
  else
    b <- get (fun b => b) ;;
    match try_store set_current_rudder_value steering_value b with
    | None => print (Invalid_steering_value steering_value)
    | Some b' =>
        assign (fun _ => b') ;;
        allow <- __should_allow_rc_override ;;
        if allow then
          __update_steering ;;
          print (Steering_set_to steering_value)
        else print Overriding_RC_channels_currently_disabled
    end.

Definition set_throttle (throttle_value : pyval) : M unit :=
  c <- get connected ;;
  if negb c then print Vehicle_not_connected
  else
    b <- get (fun b => b) ;;
    match try_store set_current_throttle_value throttle_value b with
    | None => print (Invalid_steering_value throttle_value)
    | Some b' =>
        assign (fun _ => b') ;;
        allow <- __should_allow_rc_override ;;
        if allow then
          __update_steering ;;
          print (Throttle_set_to throttle_value)
        else print Overriding_RC_channels_currently_disabled
    end.

Definition set_throttle_differential (throttle_left throttle_right : pyval)
  : M completion :=
  ret Raised_NotImplementedError.

Definition set_raw_servo (servo_number pwm_value : Z) : M unit :=
  c <- get connected ;;
  if negb c then print Vehicle_not_connected
  else
    let pwm_value := PyBuiltin.max 1000 (PyBuiltin.min pwm_value 2000) in
    command_long_send MAV_CMD_DO_SET_SERVO 0 [servo_number; pwm_value; 0; 0; 0; 0; 0] ;;
    print (Set_servo_to_PWM servo_number pwm_value).

(** ** Sequences of public calls *)

Inductive call :=
| call_check_rc_mode
| call_wait_for_heartbeat
| call_arm_vehicle
| call_disarm_vehicle
| call_is_armed
| call_set_speed (speed : pyval)
| call_change_heading (heading : pyval)
| call_close_connection
| call_set_relay_on (relay_number : Z)
| call_set_relay_off (relay_number : Z)
| call_emergency_stop
| call_disable_propulsion
| call_enable_propulsion
| call_set_rudder (steering_value : pyval)
| call_set_throttle (throttle_value : pyval)
| call_set_throttle_differential (throttle_left throttle_right : pyval)
| call_set_raw_servo (servo_number pwm_value : Z)
| call_get_flight_mode.

Definition returned {A} (m : M A) : M completion := m ;; ret Returned.

Definition perform (c : call) : M completion :=
  match c with
  | call_check_rc_mode => returned check_rc_mode
  | call_wait_for_heartbeat => wait_for_heartbeat
  | call_arm_vehicle => returned arm_vehicle
  | call_disarm_vehicle => returned disarm_vehicle
  | call_is_armed => returned is_armed
  | call_set_speed s => returned (set_speed s)
  | call_change_heading h => returned (change_heading h)
  | call_close_connection => returned close_connection
  | call_set_relay_on n => returned (set_relay_on n)
  | call_set_relay_off n => returned (set_relay_off n)
  | call_emergency_stop => returned emergency_stop
  | call_disable_propulsion => returned disable_propulsion
  | call_enable_propulsion => returned enable_propulsion
  | call_set_rudder v => returned (set_rudder v)
  | call_set_throttle v => returned (set_throttle v)
  | call_set_throttle_differential l r => set_throttle_differential l r
  | call_set_raw_servo n p => returned (set_raw_servo n p)
  | call_get_flight_mode => returned get_flight_mode
  end.

(* A caller's program: the calls one after the other.  A call that never
   comes back ends the run; an exception leaves the object as it is, and
   the caller may go on (a caller that does not is the run of a prefix). *)
Fixpoint run (cs : list call) (w : World) : World :=
  match cs with
  | [] => w
  | c :: rest =>
      let (r, w') := perform c w in
      match r with
      | Blocked => w'
      | _ => run rest w'
      end
  end.

(** ** Observations on worlds and traces *)

(* The packets handed to the link, oldest first. *)
Fixpoint sent_in (tr : list event) : list packet :=
  match tr with
  | [] => []
  | Sent p :: rest => p :: sent_in rest
  | _ :: rest => sent_in rest
  end.

Definition sent (w : World) : list packet := sent_in (trace w).

(* The number of RC_CHANNELS receives: each poll of the mode switch makes
   exactly one, and nothing else makes any. *)
Fixpoint polls_in (tr : list event) : nat :=
  match tr with
  | [] => O
  | Received RC_CHANNELS_t _ :: rest => S (polls_in rest)
  | _ :: rest => polls_in rest
  end.

Definition polls (w : World) : nat := polls_in (trace w).

(* What the next poll will be handed by the link, and the channel-11
   sample in it. *)
Definition next_rc_message (w : World) : option message :=
  fst (recv_match RC_CHANNELS_t w).

Definition chan11_of (m : message) : option Z :=
  match m with
  | RC_CHANNELS chan11_raw => chan11_raw
  | HEARTBEAT _ _ => None
  end.

Definition next_chan11 (w : World) : option Z :=
  match next_rc_message w with
  | Some m => chan11_of m
  | None => None
  end.

(* What the next heartbeat receive will be handed. *)
Definition next_heartbeat (w : World) : option message :=
  fst (recv_match HEARTBEAT_t w).

Definition shows_armed (m : message) : bool :=
  match m with
  | HEARTBEAT base_mode _ => negb (Z.land base_mode MAV_MODE_FLAG_SAFETY_ARMED =? 0)
  | RC_CHANNELS _ => false
  end.

(* The acceptance band of the setters and the output band. *)
Definition accepted (z : Z) : Prop := 1100 <= z <= 1900.
Definition in_output_band (z : Z) : Prop := 1000 <= z <= 2000.

(* [clamp] as the specification words it. *)
Definition clamp (p lo hi : Z) : Z := Z.max lo (Z.min p hi).

(* The PWM values a packet carries: the overridden channels of an
   RC_CHANNELS_OVERRIDE (a slot holding 0 is not overridden) and the
   second parameter of a DO_SET_SERVO. *)
Definition pwm_values (p : packet) : list Z :=
  match p with
  | RC_CHANNELS_OVERRIDE _ _ chans => filter (fun c => negb (c =? 0)) chans
  | COMMAND_LONG _ _ MAV_CMD_DO_SET_SERVO _ (_ :: pwm :: _) => [pwm]
  | COMMAND_LONG _ _ _ _ _ => []
  end.

(* The override packet that carries the setpoints stored in [b]. *)
Definition override_of (v : Vehicle) (b : Boat) : packet :=
  RC_CHANNELS_OVERRIDE (target_system v) (target_component v)
    [current_rudder_value b; current_throttle_value b; current_throttle_value b;
     0; 0; 0; 0; 0].

(** ** Auxiliary notions of the statements *)

(* The world in which the gate takes its decision: the one a poll leaves
   when the authority is UNDEFINED at entry, the entry world otherwise. *)
Definition decision_world (w : World) : World :=
  if ControlAuthority.eqb (control_authority (self w)) ControlAuthority.UNDEFINED
  then snd (__poll_rc_mode_switch w)
  else w.

(* The part the two setters share once the value is dealt with: ask the
   gate, push the stored setpoints when it allows. *)
Definition gate_and_push (said : line) : M unit :=
  allow <- __should_allow_rc_override ;;
  if allow then
    __update_steering ;;
    print said
  else print Overriding_RC_channels_currently_disabled.

Definition relay_command (v : Vehicle) (relay_number state : Z) : packet :=
  COMMAND_LONG (target_system v) (target_component v) MAV_CMD_DO_SET_RELAY 0
    [relay_number; state; 0; 0; 0; 0; 0].

(* What [is_armed] answers on the result of its receive. *)
Definition armed_answer (hb : option message) : bool :=
  match hb with
  | Some m => shows_armed m
  | None => false
  end.

(* What [is_armed] prints after its receive. *)
Definition armed_lines (hb : option message) : list event :=
  match hb with
  | Some _ => []
  | None => [Printed No_heartbeat_message_received]
  end.

Definition arm_command (v : Vehicle) (arm : Z) : packet :=
  COMMAND_LONG (target_system v) (target_component v) MAV_CMD_COMPONENT_ARM_DISARM 0
    [arm; 0; 0; 0; 0; 0; 0].

Definition setpoints_accepted (b : Boat) : Prop :=
  accepted (current_rudder_value b) /\ accepted (current_throttle_value b).

(* An override as the class builds it: rudder, throttle, throttle again,
   and five slots left alone, the two setpoints in the acceptance band. *)
Definition override_shape (p : packet) : Prop :=
  match p with
  | RC_CHANNELS_OVERRIDE _ _ chans =>
      exists r t, chans = [r; t; t; 0; 0; 0; 0; 0] /\ accepted r /\ accepted t
  | COMMAND_LONG _ _ _ _ _ => True
  end.

Definition packet_in_band (p : packet) : Prop :=
  Forall in_output_band (pwm_values p) /\ override_shape p.

(* The invariant: the stored setpoints are in the acceptance band and
   every PWM value handed to the link so far is in the output band. *)
Definition safe (w : World) : Prop :=
  setpoints_accepted (self w) /\ Forall packet_in_band (sent w).

Definition preserves {A} (m : M A) : Prop := forall w, safe w -> safe (snd (m w)).

(* Assignments that leave both setpoints alone. *)
Definition keeps_setpoints (f : Boat -> Boat) : Prop :=
  forall b, current_rudder_value (f b) = current_rudder_value b /\
            current_throttle_value (f b) = current_throttle_value b.

(* A method keeps a property of the object. *)
Definition keeps {A} (Q : Boat -> Prop) (m : M A) : Prop :=
  forall w, Q (self w) -> Q (self (snd (m w))).

(* Whether the receive window at the head of the script holds a heartbeat
   with the safety-armed flag. *)
Definition window_armed (tel : list window) : bool :=
  match tel with
  | win :: _ =>
      match arrives win with
      | Some m => shows_armed m
      | None => false
      end
  | [] => false
  end.

Definition is_heartbeat (win : window) : bool :=
  match arrives win with
  | Some (HEARTBEAT _ _) => true
  | _ => false
  end.

(* The calls that may assign the setpoints, the status, the connection
   flags. *)
Definition is_setter (c : call) : bool :=
  match c with
  | call_set_rudder _ | call_set_throttle _ => true
  | _ => false
  end.

Definition is_arming (c : call) : bool :=
  match c with
  | call_arm_vehicle | call_disarm_vehicle => true
  | _ => false
  end.

Definition is_connection (c : call) : bool :=
  match c with
  | call_wait_for_heartbeat | call_close_connection => true
  | _ => false
  end.

(* The calls that hand nothing to the link, the calls that make no
   receive, and the calls that make exactly one heartbeat receive. *)
Definition sends_nothing (c : call) : bool :=
  match c with
  | call_is_armed | call_get_flight_mode | call_wait_for_heartbeat
  | call_close_connection | call_set_speed _ | call_change_heading _
  | call_set_throttle_differential _ _ => true
  | _ => false
  end.

Definition reads_no_telemetry (c : call) : bool :=
  match c with
  | call_set_speed _ | call_change_heading _
  | call_set_relay_on _ | call_set_relay_off _ | call_emergency_stop
  | call_disable_propulsion | call_enable_propulsion
  | call_set_throttle_differential _ _ | call_set_raw_servo _ _ => true
  | _ => false
  end.

Definition reads_one_heartbeat (c : call) : bool :=
  match c with
  | call_arm_vehicle | call_disarm_vehicle | call_is_armed | call_get_flight_mode => true
  | _ => false
  end.

(* What [set_raw_servo] hands to the link for an output value. *)
Definition servo_command (v : Vehicle) (servo_number pwm : Z) : packet :=
  COMMAND_LONG (target_system v) (target_component v) MAV_CMD_DO_SET_SERVO 0
    [servo_number; pwm; 0; 0; 0; 0; 0].

(** ** Sample worlds *)

(* A fresh connection to a vehicle with system id 1 whose receive windows
   deliver [tel]: the addressing is 0/0 until the first heartbeat has been
   read and 1/0 from then on. *)
Fixpoint windows_from (system : Z) (tel : list (option message)) : list window :=
  match tel with
  | [] => []
  | r :: rest =>
      let system' := match r with
                     | Some (HEARTBEAT _ _) => 1
                     | _ => system
                     end in
      mkWindow r system' 0 :: windows_from system' rest
  end.

Definition link (tel : list (option message)) : Vehicle :=
  mkVehicle 0 0 (windows_from 0 tel).

(* A boat just constructed on a link that stays silent for the two
   receives of the constructor and then delivers [tel]. *)
Definition constructed (tel : list (option message)) : World :=
  __init__ "/dev/cu.usbmodem2101" 115200 (link (None :: None :: tel)).

(* The same boat once [wait_for_heartbeat] has seen a heartbeat. *)
Definition connected_boat (tel : list (option message)) : World :=
  snd (wait_for_heartbeat (constructed (Some (HEARTBEAT 0 0) :: tel))).

(* A world with the given authority. *)
Definition with_authority (a : ControlAuthority.t) (w : World) : World :=
  mkWorld (set_control_authority a (self w)) (vehicle w) (trace w).

(** * Properties *)

Lemma ControlAuthority_eqb_eq a b : ControlAuthority.eqb a b = true <-> a = b.
Proof. destruct a, b; simpl; split; congruence. Qed.

Lemma sent_in_app tr1 tr2 : sent_in (tr1 ++ tr2) = sent_in tr1 ++ sent_in tr2.
Proof.
  induction tr1 as [|e tr1 IH]; simpl; [reflexivity|].
  destruct e; simpl; rewrite IH; reflexivity.
Qed.

Lemma polls_in_app tr1 tr2 : polls_in (tr1 ++ tr2) = (polls_in tr1 + polls_in tr2)%nat.
Proof.
  induction tr1 as [|e tr1 IH]; simpl; [reflexivity|].
  destruct e as [l|t r|p|]; simpl; try assumption.
  destruct t; simpl; rewrite IH; reflexivity.
Qed.

(* Unfold the monad and the primitives of the link. *)
Ltac unmonad :=
  unfold command_long_send, rc_channels_override_send, print, log, target,
    get, assign, bind, ret in *;
  cbn [fst snd self vehicle trace] in *.

(** What one poll does, in full. *)
Lemma poll_rc_mode_switch_run w :
  __poll_rc_mode_switch w =
  let w1 := snd (recv_match RC_CHANNELS_t w) in
  match next_rc_message w with
  | None => (tt, w1)
  | Some m =>
      let b := set_rc_channel_11_value (chan11_of m) (self w) in
      match chan11_of m with
      | None =>
          (tt, mkWorld b (vehicle w1)
                 (trace w1 ++ [Printed RC_Channel_11_value_not_available]))
      | Some v =>
          if v >? 1500 then
            if ControlAuthority.eqb (control_authority (self w)) REMOTE then
              (tt, mkWorld b (vehicle w1) (trace w1 ++ [Printed (RC_Channel_11_value v)]))
            else
              (tt, mkWorld (set_control_authority REMOTE b) (vehicle w1)
                     ((trace w1 ++ [Printed (RC_Channel_11_value v)])
                        ++ [Printed CONTROL_AUTHORITY_UPDATED_TO_REMOTE]))
          else if v <? 1500 then
            if ControlAuthority.eqb (control_authority (self w)) MANUAL then
              (tt, mkWorld b (vehicle w1) (trace w1 ++ [Printed (RC_Channel_11_value v)]))
            else
              (tt, mkWorld (set_control_authority MANUAL b) (vehicle w1)
                     ((trace w1 ++ [Printed (RC_Channel_11_value v)])
                        ++ [Printed CONTROL_AUTHORITY_UPDATED_TO_MANUAL]))
          else
            (tt, mkWorld b (vehicle w1) (trace w1 ++ [Printed (RC_Channel_11_value v)]))
      end
  end.
Proof.
  unfold __poll_rc_mode_switch, next_rc_message.
  unfold bind at 1.
  destruct (recv_match RC_CHANNELS_t w) as [[m|] w1] eqn:E; cbn [fst snd]; [|reflexivity].
  assert (Hs : self w1 = self w).
  { unfold recv_match in E. inversion E. reflexivity. }
  destruct m as [bm cm|[v|]]; cbn [chan11_of]; unmonad; rewrite ?Hs; try reflexivity.
  cbn [set_rc_channel_11_value control_authority].
  destruct (Z.gtb_spec v 1500) as [Hgt|Hle]; cbn [andb].
  - destruct (ControlAuthority.eqb (control_authority (self w)) REMOTE); cbn [negb];
      [|reflexivity].
    destruct (Z.ltb_spec v 1500); [lia|reflexivity].
  - destruct (Z.ltb_spec v 1500); cbn [andb]; [|reflexivity].
    destruct (ControlAuthority.eqb (control_authority (self w)) MANUAL); reflexivity.
Qed.

Lemma recv_match_self t w : self (snd (recv_match t w)) = self w.
Proof. reflexivity. Qed.

Lemma after_receive_telemetry v : telemetry (after_receive v) = tl (telemetry v).
Proof. unfold after_receive. destruct (telemetry v); reflexivity. Qed.

Lemma recv_match_telemetry t w :
  telemetry (vehicle (snd (recv_match t w))) = tl (telemetry (vehicle w)).
Proof. apply after_receive_telemetry. Qed.

Lemma recv_match_trace t w :
  trace (snd (recv_match t w)) = trace w ++ [Received t (fst (recv_match t w))].
Proof. reflexivity. Qed.

(* The authority a poll leaves behind, as a function of the sample. *)
Lemma poll_authority w :
  control_authority (self (snd (__poll_rc_mode_switch w))) =
  match next_chan11 w with
  | Some v => if v >? 1500 then REMOTE
              else if v <? 1500 then MANUAL
              else control_authority (self w)
  | None => control_authority (self w)
  end.
Proof.
  rewrite poll_rc_mode_switch_run. unfold next_chan11.
  destruct (next_rc_message w) as [m|]; cbn [snd]; [|reflexivity].
  destruct (chan11_of m) as [v|]; [|reflexivity].
  destruct (v >? 1500).
  - destruct (ControlAuthority.eqb _ REMOTE) eqn:E; [|reflexivity].
    apply ControlAuthority_eqb_eq in E. cbn. congruence.
  - destruct (v <? 1500); [|reflexivity].
    destruct (ControlAuthority.eqb _ MANUAL) eqn:E; [|reflexivity].
    apply ControlAuthority_eqb_eq in E. cbn. congruence.
Qed.

(* A poll makes one RC_CHANNELS receive. *)
Lemma poll_polls w : polls (snd (__poll_rc_mode_switch w)) = S (polls w).
Proof.
  rewrite poll_rc_mode_switch_run. cbv zeta. unfold polls.
  assert (P : forall tr, polls_in (trace (snd (recv_match RC_CHANNELS_t w)) ++ tr)
                         = S (polls_in (trace w) + polls_in tr)).
  { intros tr. rewrite recv_match_trace, !polls_in_app. cbn. lia. }
  destruct (next_rc_message w) as [m|]; cbn [snd].
  - destruct (chan11_of m) as [v|];
      [destruct (v >? 1500);
       [destruct (ControlAuthority.eqb _ REMOTE)
       |destruct (v <? 1500); [destruct (ControlAuthority.eqb _ MANUAL)|]]|];
      cbn [snd trace]; rewrite <- ?app_assoc, P; cbn; lia.
  - rewrite <- (app_nil_r (trace _)), P. cbn. lia.
Qed.

(* The object a poll leaves: the sample stored and the authority decided,
   when a message arrives; the object as it was otherwise. *)
Lemma poll_self w :
  self (snd (__poll_rc_mode_switch w)) =
  match next_rc_message w with
  | None => self w
  | Some m =>
      set_control_authority
        (control_authority (self (snd (__poll_rc_mode_switch w))))
        (set_rc_channel_11_value (chan11_of m) (self w))
  end.
Proof.
  rewrite poll_rc_mode_switch_run. cbv zeta.
  destruct (next_rc_message w) as [m|]; cbn [snd]; [|reflexivity].
  destruct (chan11_of m) as [v|]; [|reflexivity].
  destruct (v >? 1500);
    [destruct (ControlAuthority.eqb _ REMOTE)
    |destruct (v <? 1500); [destruct (ControlAuthority.eqb _ MANUAL)|]];
    reflexivity.
Qed.

(** C3.  A poll of the RC mode switch leaves the authority as it was when
    the receive yields no RC_CHANNELS message or the message carries no
    channel-11 value; with a channel-11 value [v], the authority after the
    poll is REMOTE when [v > 1500], MANUAL when [v < 1500], and the one
    before the poll when [v = 1500].  The poll is a total function of the
    world: no case raises. *)
Theorem poll_rc_mode_switch_authority (w : World) :
  let before := control_authority (self w) in
  let after := control_authority (self (snd (__poll_rc_mode_switch w))) in
  (next_rc_message w = None -> after = before) /\
  (forall m, next_rc_message w = Some m -> chan11_of m = None -> after = before) /\
  (forall m v, next_rc_message w = Some m -> chan11_of m = Some v ->
     (v > 1500 -> after = REMOTE) /\
     (v < 1500 -> after = MANUAL) /\
     (v = 1500 -> after = before)).
Proof.
  cbv zeta. rewrite poll_authority. unfold next_chan11.
  split; [|split].
  - intros ->. reflexivity.
  - intros m -> ->. reflexivity.
  - intros m v -> ->.
    destruct (Z.gtb_spec v 1500), (Z.ltb_spec v 1500);
      repeat split; intros; (reflexivity || lia).
Qed.

Lemma poll_rc_mode_switch_authority_witness :
  let w := with_authority MANUAL (connected_boat [Some (RC_CHANNELS (Some 1700))]) in
  next_rc_message w = Some (RC_CHANNELS (Some 1700)) /\
  control_authority (self w) = MANUAL /\
  control_authority (self (snd (__poll_rc_mode_switch w))) = REMOTE.
Proof.
  cbv zeta. split; [reflexivity|]. split; [reflexivity|].
  apply (proj2 (proj2 (poll_rc_mode_switch_authority
           (with_authority MANUAL (connected_boat [Some (RC_CHANNELS (Some 1700))]))))
           (RC_CHANNELS (Some 1700)) 1700 eq_refl eq_refl).
  reflexivity.
Defined.

(** C9 as stated fails: a poll that receives a message stores the sample
    in the attribute [rc_channel_11_value], so a field other than the
    authority changes. *)
Lemma poll_stores_the_sample :
  let w := connected_boat [Some (RC_CHANNELS (Some 1500))] in
  let w' := snd (__poll_rc_mode_switch w) in
  control_authority (self w') = control_authority (self w) /\
  rc_channel_11_value (self w) = None /\
  rc_channel_11_value (self w') = Some (Some 1500) /\
  ~ (exists a, self w' = set_control_authority a (self w)).
Proof.
  cbv zeta. repeat split.
  intros [a H]. apply (f_equal rc_channel_11_value) in H. discriminate H.
Qed.

(** C9, amended.  A poll makes exactly one receive, for an RC_CHANNELS
    message.  When none arrives, no field of the object changes.  When one
    arrives, the object is the one before the poll with
    [rc_channel_11_value] holding the sample of that message (or [None]
    when the message has none) and with the authority the poll decided:
    no other field changes. *)
Theorem poll_frame (w : World) :
  let w' := snd (__poll_rc_mode_switch w) in
  polls w' = S (polls w) /\
  telemetry (vehicle w') = tl (telemetry (vehicle w)) /\
  self w' =
    match next_rc_message w with
    | None => self w
    | Some m =>
        set_control_authority (control_authority (self w'))
          (set_rc_channel_11_value (chan11_of m) (self w))
    end.
Proof.
  cbv zeta. rewrite poll_rc_mode_switch_run. cbv zeta.
  assert (P : forall tr, polls_in (trace (snd (recv_match RC_CHANNELS_t w)) ++ tr)
                       = S (polls w + polls_in tr)).
  { intros tr. rewrite recv_match_trace, !polls_in_app. unfold polls. cbn. lia. }
  assert (P0 : polls (snd (recv_match RC_CHANNELS_t w)) = S (polls w)).
  { unfold polls. rewrite recv_match_trace, polls_in_app. cbn. lia. }
  unfold polls at 1.
  destruct (next_rc_message w) as [m|]; cbn [snd];
    [|split; [exact P0|split; [apply (recv_match_telemetry RC_CHANNELS_t)|reflexivity]]].
  destruct (chan11_of m) as [v|].
  - destruct (v >? 1500);
      [destruct (ControlAuthority.eqb _ REMOTE)
      |destruct (v <? 1500); [destruct (ControlAuthority.eqb _ MANUAL)|]];
      cbn [snd self vehicle trace]; rewrite <- ?app_assoc, P; cbn;
      (split; [lia|split; [apply (recv_match_telemetry RC_CHANNELS_t)|reflexivity]]).
  - cbn [snd self vehicle trace]. rewrite P. cbn.
    split; [lia|split; [apply (recv_match_telemetry RC_CHANNELS_t)|reflexivity]].
Qed.

Lemma should_allow_rc_override_run w :
  __should_allow_rc_override w =
  let w1 := decision_world w in
  let a := control_authority (self w1) in
  (negb (ControlAuthority.value a =? 0),
   mkWorld (self w1) (vehicle w1)
           (trace w1 ++ [Printed (Authority_value (ControlAuthority.value a))])).
Proof.
  unfold __should_allow_rc_override, decision_world. unmonad.
  destruct (ControlAuthority.eqb _ _);
    [destruct (__poll_rc_mode_switch w) as [[] w1]|]; reflexivity.
Qed.

(** C4.  The gate answers false exactly when the authority it decides on
    is MANUAL; entered with MANUAL it answers false, entered with REMOTE or
    AUTOMATIC it answers true, and in these three cases it makes no poll
    and leaves the object and the link as they are.  Entered with
    UNDEFINED it makes exactly one poll, first, and decides on the
    authority that poll leaves. *)
Theorem should_allow_rc_override_decision (w : World) :
  let r := __should_allow_rc_override w in
  let entry := control_authority (self w) in
  (fst r = false <-> control_authority (self (snd r)) = MANUAL) /\
  (entry = MANUAL -> fst r = false) /\
  (entry = REMOTE \/ entry = AUTOMATIC -> fst r = true) /\
  (entry <> ControlAuthority.UNDEFINED ->
     polls (snd r) = polls w /\
     self (snd r) = self w /\ vehicle (snd r) = vehicle w) /\
  (entry = ControlAuthority.UNDEFINED ->
     let w1 := snd (__poll_rc_mode_switch w) in
     polls (snd r) = S (polls w) /\
     self (snd r) = self w1 /\ vehicle (snd r) = vehicle w1 /\
     trace (snd r) =
       trace w1 ++ [Printed (Authority_value (ControlAuthority.value
                                                 (control_authority (self w1))))] /\
     fst r = negb (ControlAuthority.eqb (control_authority (self w1)) MANUAL)).
Proof.
  cbv zeta. rewrite should_allow_rc_override_run. cbv zeta. cbn [fst snd self vehicle trace].
  unfold polls. cbn [trace]. rewrite polls_in_app. cbn [polls_in].
  split; [|split; [|split; [|split]]].
  - destruct (control_authority (self (decision_world w))); cbn; split; congruence.
  - unfold decision_world. intros E. rewrite E. cbn [ControlAuthority.eqb].
    rewrite E. reflexivity.
  - unfold decision_world.
    intros [E | E]; rewrite E; cbn [ControlAuthority.eqb]; rewrite E; reflexivity.
  - unfold decision_world. intros H.
    destruct (control_authority (self w)); cbn; try congruence;
      (split; [lia|split; reflexivity]).
  - unfold decision_world. intros E. rewrite E. cbn [ControlAuthority.eqb].
    pose proof (poll_polls w) as P. unfold polls in P. rewrite P.
    split; [lia|]. repeat split.
    destruct (control_authority (self (snd (__poll_rc_mode_switch w)))); reflexivity.
Qed.

Lemma should_allow_rc_override_decision_witness :
  let w := with_authority ControlAuthority.UNDEFINED
             (connected_boat [Some (RC_CHANNELS (Some 1400))]) in
  control_authority (self w) = ControlAuthority.UNDEFINED /\
  polls (snd (__should_allow_rc_override w)) = S (polls w) /\
  fst (__should_allow_rc_override w) = false.
Proof.
  cbv zeta. split; [reflexivity|].
  pose proof (should_allow_rc_override_decision
                (with_authority ControlAuthority.UNDEFINED
                   (connected_boat [Some (RC_CHANNELS (Some 1400))]))) as H.
  cbv zeta in H.
  destruct H as (_ & _ & _ & _ & H).
  specialize (H eq_refl). destruct H as (P & _ & _ & _ & R).
  split; [exact P|]. rewrite R. reflexivity.
Defined.

(** C10.  Entered with UNDEFINED, the gate answers true whenever its one
    poll leaves the authority UNDEFINED, which is the case exactly when
    the poll sees no message, a message without channel-11 value, or the
    value 1500: the ordinal of UNDEFINED is -1, not 0. *)
Theorem undefined_authority_allows_override (w : World) :
  control_authority (self w) = ControlAuthority.UNDEFINED ->
  ControlAuthority.value ControlAuthority.UNDEFINED = -1 /\
  (control_authority (self (snd (__poll_rc_mode_switch w))) = ControlAuthority.UNDEFINED
   <-> next_chan11 w = None \/ next_chan11 w = Some 1500) /\
  (control_authority (self (snd (__poll_rc_mode_switch w))) = ControlAuthority.UNDEFINED ->
   fst (__should_allow_rc_override w) = true /\
   control_authority (self (snd (__should_allow_rc_override w))) = ControlAuthority.UNDEFINED).
Proof.
  intros U. split; [reflexivity|]. split.
  - rewrite poll_authority, U.
    destruct (next_chan11 w) as [v|].
    + destruct (Z.gtb_spec v 1500) as [G|G];
        [|destruct (Z.ltb_spec v 1500) as [L|L]].
      * split; [discriminate|]. intros [D|E]; [discriminate|]. injection E. lia.
      * split; [discriminate|]. intros [D|E]; [discriminate|]. injection E. lia.
      * split; [|reflexivity]. intros _. right. f_equal. lia.
    + split; auto.
  - intros K. rewrite should_allow_rc_override_run. cbv zeta.
    unfold decision_world. rewrite U. cbn [ControlAuthority.eqb fst snd self].
    rewrite K. split; reflexivity.
Qed.

Lemma undefined_authority_allows_override_witness :
  let w := with_authority ControlAuthority.UNDEFINED
             (connected_boat [Some (RC_CHANNELS (Some 1500))]) in
  control_authority (self w) = ControlAuthority.UNDEFINED /\
  next_chan11 w = Some 1500 /\
  fst (__should_allow_rc_override w) = true.
Proof.
  cbv zeta. split; [reflexivity|]. split; [reflexivity|].
  apply (proj2 (proj2 (undefined_authority_allows_override
           (with_authority ControlAuthority.UNDEFINED
              (connected_boat [Some (RC_CHANNELS (Some 1500))])) eq_refl))).
  reflexivity.
Defined.

(** ** The setters *)

Lemma try_store_eq store v b :
  try_store store v b =
  match PyBuiltin.int v with
  | None => None
  | Some z => Some (if (z >=? 1100) && (z <=? 1900) then store z b else b)
  end.
Proof.
  unfold try_store. destruct (PyBuiltin.int v) as [z|]; [|reflexivity].
  destruct ((z >=? 1100) && (z <=? 1900)); reflexivity.
Qed.

Lemma band_test z : (z >=? 1100) && (z <=? 1900) = true <-> accepted z.
Proof. unfold accepted. rewrite andb_true_iff. lia. Qed.

Lemma band_test_false z : ~ accepted z -> (z >=? 1100) && (z <=? 1900) = false.
Proof.
  intros H. destruct ((z >=? 1100) && (z <=? 1900)) eqn:E; [|reflexivity].
  apply band_test in E. contradiction.
Qed.

Lemma set_rudder_run v w :
  set_rudder v w =
  if connected (self w) then
    match try_store set_current_rudder_value v (self w) with
    | None => print (Invalid_steering_value v) w
    | Some b' => gate_and_push (Steering_set_to v) (mkWorld b' (vehicle w) (trace w))
    end
  else print Vehicle_not_connected w.
Proof.
  unfold set_rudder, gate_and_push.
  unfold bind at 1, get at 1. destruct (connected (self w)); cbn [negb]; [|reflexivity].
  unfold bind at 1, get at 1.
  destruct (try_store _ _ _); reflexivity.
Qed.

Lemma set_throttle_run v w :
  set_throttle v w =
  if connected (self w) then
    match try_store set_current_throttle_value v (self w) with
    | None => print (Invalid_steering_value v) w
    | Some b' => gate_and_push (Throttle_set_to v) (mkWorld b' (vehicle w) (trace w))
    end
  else print Vehicle_not_connected w.
Proof.
  unfold set_throttle, gate_and_push.
  unfold bind at 1, get at 1. destruct (connected (self w)); cbn [negb]; [|reflexivity].
  unfold bind at 1, get at 1.
  destruct (try_store _ _ _); reflexivity.
Qed.

Lemma update_steering_run w :
  __update_steering w =
  (tt, mkWorld (self w) (vehicle w)
         (trace w ++ [Printed (Updated_steering (current_rudder_value (self w))
                                                (current_throttle_value (self w)));
                      Sent (override_of (vehicle w) (self w))])).
Proof.
  unfold __update_steering, override_of. unmonad. rewrite <- app_assoc. reflexivity.
Qed.

Lemma gate_and_push_run said w :
  gate_and_push said w =
  let g := __should_allow_rc_override w in
  let w1 := snd g in
  (tt, mkWorld (self w1) (vehicle w1)
         (trace w1 ++
          if fst g
          then [Printed (Updated_steering (current_rudder_value (self w1))
                                          (current_throttle_value (self w1)));
                Sent (override_of (vehicle w1) (self w1));
                Printed said]
          else [Printed Overriding_RC_channels_currently_disabled])).
Proof.
  unfold gate_and_push. unfold bind at 1.
  destruct (__should_allow_rc_override w) as [[|] w1]; cbv zeta; cbn [fst snd].
  - unfold bind. rewrite update_steering_run. unmonad.
    rewrite <- app_assoc. reflexivity.
  - reflexivity.
Qed.

(* Neither a poll nor the gate touches the two setpoints. *)
Lemma poll_keeps_setpoints w :
  let w' := snd (__poll_rc_mode_switch w) in
  current_rudder_value (self w') = current_rudder_value (self w) /\
  current_throttle_value (self w') = current_throttle_value (self w).
Proof.
  cbv zeta. rewrite (poll_self w).
  destruct (next_rc_message w); split; reflexivity.
Qed.

Lemma gate_keeps_setpoints w :
  let w' := snd (__should_allow_rc_override w) in
  current_rudder_value (self w') = current_rudder_value (self w) /\
  current_throttle_value (self w') = current_throttle_value (self w).
Proof.
  cbv zeta. rewrite should_allow_rc_override_run. cbv zeta. cbn [snd self].
  unfold decision_world. destruct (ControlAuthority.eqb _ _); [|split; reflexivity].
  apply poll_keeps_setpoints.
Qed.

Lemma gate_and_push_keeps_setpoints said w :
  let w' := snd (gate_and_push said w) in
  current_rudder_value (self w') = current_rudder_value (self w) /\
  current_throttle_value (self w') = current_throttle_value (self w).
Proof.
  cbv zeta. rewrite gate_and_push_run. cbv zeta. cbn [snd self].
  apply gate_keeps_setpoints.
Qed.

(** C5.  On a connected boat: when the value coerces to an integer [z]
    with 1100 <= z <= 1900, [set_rudder] leaves [z] in the rudder setpoint
    and [set_throttle] leaves [z] in the throttle setpoint, the other
    setpoint staying as it was; for every other value both setpoints are
    as they were before the call. *)
Theorem setters_store_accepted_values (v : pyval) (w : World) :
  connected (self w) = true ->
  let wr := snd (set_rudder v w) in
  let wt := snd (set_throttle v w) in
  (forall z, PyBuiltin.int v = Some z -> accepted z ->
     (current_rudder_value (self wr) = z /\
      current_throttle_value (self wr) = current_throttle_value (self w)) /\
     (current_throttle_value (self wt) = z /\
      current_rudder_value (self wt) = current_rudder_value (self w))) /\
  ((forall z, PyBuiltin.int v = Some z -> ~ accepted z) ->
     (current_rudder_value (self wr) = current_rudder_value (self w) /\
      current_throttle_value (self wr) = current_throttle_value (self w)) /\
     (current_throttle_value (self wt) = current_throttle_value (self w) /\
      current_rudder_value (self wt) = current_rudder_value (self w))).
Proof.
  intros C. cbv zeta. rewrite set_rudder_run, set_throttle_run, C, !try_store_eq.
  split.
  - intros z E A. rewrite E. apply band_test in A. rewrite A.
    split.
    + destruct (gate_and_push_keeps_setpoints (Steering_set_to v)
                  (mkWorld (set_current_rudder_value z (self w)) (vehicle w) (trace w)))
        as [R T].
      rewrite R, T. split; reflexivity.
    + destruct (gate_and_push_keeps_setpoints (Throttle_set_to v)
                  (mkWorld (set_current_throttle_value z (self w)) (vehicle w) (trace w)))
        as [R T].
      rewrite R, T. split; reflexivity.
  - intros N. destruct (PyBuiltin.int v) as [z|].
    + rewrite (band_test_false z (N z eq_refl)).
      split.
      * destruct (gate_and_push_keeps_setpoints (Steering_set_to v)
                    (mkWorld (self w) (vehicle w) (trace w))) as [R T].
        rewrite R, T. split; reflexivity.
      * destruct (gate_and_push_keeps_setpoints (Throttle_set_to v)
                    (mkWorld (self w) (vehicle w) (trace w))) as [R T].
        rewrite R, T. split; reflexivity.
    + repeat split.
Qed.

Lemma setters_store_accepted_values_witness :
  let w := connected_boat [] in
  connected (self w) = true /\
  PyBuiltin.int (PyObject (Some 1600)) = Some 1600 /\
  current_rudder_value (self (snd (set_rudder (PyObject (Some 1600)) w))) = 1600 /\
  PyBuiltin.int (PyInt 1901) = Some 1901 /\
  current_throttle_value (self (snd (set_throttle (PyInt 1901) w))) = 1500.
Proof.
  cbv zeta. split; [reflexivity|]. split; [reflexivity|]. split.
  - apply (proj1 (setters_store_accepted_values (PyObject (Some 1600)) (connected_boat [])
                    eq_refl) 1600 eq_refl).
    unfold accepted. lia.
  - split; [reflexivity|].
    apply (proj2 (setters_store_accepted_values (PyInt 1901) (connected_boat [])
                    eq_refl)).
    intros z E. injection E as <-. unfold accepted. lia.
Defined.

(* A setter called on a boat that is not connected only prints. *)
Lemma setter_not_connected v w :
  connected (self w) = false ->
  set_rudder v w = print Vehicle_not_connected w /\
  set_throttle v w = print Vehicle_not_connected w.
Proof. intros C. rewrite set_rudder_run, set_throttle_run, C. split; reflexivity. Qed.

(* A setter handed a value [int()] raises on only prints. *)
Lemma setter_not_coercible v w :
  connected (self w) = true ->
  PyBuiltin.int v = None ->
  set_rudder v w = print (Invalid_steering_value v) w /\
  set_throttle v w = print (Invalid_steering_value v) w.
Proof.
  intros C E. rewrite set_rudder_run, set_throttle_run, C, !try_store_eq, E.
  split; reflexivity.
Qed.

(** C2, the case the code misses.  A setter called on a connected boat
    with an integer outside [1100,1900] does not return after leaving the
    setpoint alone: it goes on to the gate, and with the authority REMOTE
    or AUTOMATIC it sends an override carrying the stored setpoints and
    prints that the value was set.  No line reports the rejection. *)
Theorem out_of_band_setter_still_transmits (v : pyval) (z : Z) (w : World) :
  connected (self w) = true ->
  PyBuiltin.int v = Some z ->
  ~ accepted z ->
  control_authority (self w) = REMOTE \/ control_authority (self w) = AUTOMATIC ->
  let pushed said :=
    mkWorld (self w) (vehicle w)
      (trace w ++
       [Printed (Authority_value (ControlAuthority.value (control_authority (self w))));
        Printed (Updated_steering (current_rudder_value (self w))
                                  (current_throttle_value (self w)));
        Sent (override_of (vehicle w) (self w));
        Printed said]) in
  snd (set_rudder v w) = pushed (Steering_set_to v) /\
  snd (set_throttle v w) = pushed (Throttle_set_to v).
Proof.
  intros C E N A. cbv zeta.
  rewrite set_rudder_run, set_throttle_run, C, !try_store_eq, E, (band_test_false z N).
  rewrite !gate_and_push_run. cbv zeta.
  rewrite !should_allow_rc_override_run. cbv zeta. unfold decision_world.
  cbn [fst snd self vehicle trace].
  destruct A as [A|A]; rewrite A; cbn [ControlAuthority.eqb negb fst snd self vehicle trace];
    rewrite ?A; cbn; rewrite <- !app_assoc; split; reflexivity.
Qed.

Lemma out_of_band_setter_still_transmits_witness :
  let w := connected_boat [] in
  connected (self w) = true /\
  PyBuiltin.int (PyInt 2000) = Some 2000 /\
  ~ accepted 2000 /\
  control_authority (self w) = REMOTE /\
  current_rudder_value (self (snd (set_rudder (PyInt 2000) w))) = 1500 /\
  sent (snd (set_rudder (PyInt 2000) w)) =
    sent w ++ [RC_CHANNELS_OVERRIDE 1 0 [1500; 1500; 1500; 0; 0; 0; 0; 0]] /\
  In (Printed (Steering_set_to (PyInt 2000))) (trace (snd (set_rudder (PyInt 2000) w))).
Proof.
  cbv zeta.
  assert (N : ~ accepted 2000) by (unfold accepted; lia).
  split; [reflexivity|]. split; [reflexivity|]. split; [exact N|]. split; [reflexivity|].
  rewrite (proj1 (out_of_band_setter_still_transmits (PyInt 2000) 2000 (connected_boat [])
                    eq_refl eq_refl N (or_introl eq_refl))).
  split; [reflexivity|]. split; [reflexivity|].
  cbn. tauto.
Defined.

(** ** Raw servo output and the propulsion relay *)

Lemma max_min_is_clamp p :
  PyBuiltin.max 1000 (PyBuiltin.min p 2000) = clamp p 1000 2000.
Proof.
  unfold PyBuiltin.max, PyBuiltin.min, clamp.
  destruct (Z.ltb_spec 2000 p);
    [destruct (Z.gtb_spec 2000 1000)|destruct (Z.gtb_spec p 1000)]; lia.
Qed.

Lemma clamp_in_output_band p : in_output_band (clamp p 1000 2000).
Proof. unfold in_output_band, clamp. lia. Qed.

Lemma set_raw_servo_run n p w :
  set_raw_servo n p w =
  if connected (self w) then
    (tt, mkWorld (self w) (vehicle w)
           (trace w ++
            [Sent (COMMAND_LONG (target_system (vehicle w)) (target_component (vehicle w))
                     MAV_CMD_DO_SET_SERVO 0 [n; clamp p 1000 2000; 0; 0; 0; 0; 0]);
             Printed (Set_servo_to_PWM n (clamp p 1000 2000))]))
  else print Vehicle_not_connected w.
Proof.
  unfold set_raw_servo. unfold bind at 1, get at 1.
  destruct (connected (self w)); cbn [negb]; [|reflexivity].
  rewrite max_min_is_clamp. unmonad. rewrite <- app_assoc. reflexivity.
Qed.

(** C7.  On a connected boat [set_raw_servo n p] sends one DO_SET_SERVO
    command whose PWM parameter is [clamp p 1000 2000], whatever [p] is, and
    prints; it makes no receive, leaves the object and the link as they
    are, and does the same under every control authority.  On a boat that
    is not connected it prints and sends nothing. *)
Theorem set_raw_servo_clamps (n p : Z) (w : World) :
  let w' := snd (set_raw_servo n p w) in
  (connected (self w) = true ->
     trace w' =
       trace w ++
       [Sent (COMMAND_LONG (target_system (vehicle w)) (target_component (vehicle w))
                MAV_CMD_DO_SET_SERVO 0 [n; clamp p 1000 2000; 0; 0; 0; 0; 0]);
        Printed (Set_servo_to_PWM n (clamp p 1000 2000))] /\
     self w' = self w /\ vehicle w' = vehicle w) /\
  (connected (self w) = false ->
     trace w' = trace w ++ [Printed Vehicle_not_connected] /\
     sent w' = sent w /\ self w' = self w /\ vehicle w' = vehicle w) /\
  (forall a, trace (snd (set_raw_servo n p (with_authority a w))) = trace w').
Proof.
  cbv zeta. rewrite set_raw_servo_run. split; [|split].
  - intros ->. repeat split.
  - intros ->. unfold sent. unmonad. rewrite sent_in_app. cbn.
    rewrite app_nil_r. repeat split.
  - intros a. rewrite set_raw_servo_run. cbn [with_authority self vehicle trace].
    cbn [set_control_authority connected].
    destruct (connected (self w)); reflexivity.
Qed.

Lemma set_raw_servo_clamps_witness :
  let w := with_authority MANUAL (connected_boat []) in
  connected (self w) = true /\
  sent (snd (set_raw_servo 3 2500 w)) =
    sent w ++ [COMMAND_LONG 1 0 MAV_CMD_DO_SET_SERVO 0 [3; 2000; 0; 0; 0; 0; 0]] /\
  connected (self (constructed [])) = false /\
  sent (snd (set_raw_servo 3 2500 (constructed []))) = sent (constructed []).
Proof.
  cbv zeta. split; [reflexivity|]. split.
  - unfold sent.
    rewrite (proj1 (proj1 (set_raw_servo_clamps 3 2500
                             (with_authority MANUAL (connected_boat []))) eq_refl)).
    reflexivity.
  - split; [reflexivity|].
    apply (proj1 (proj2 (proj1 (proj2 (set_raw_servo_clamps 3 2500 (constructed [])))
                           eq_refl))).
Defined.

(** C6.  [enable_propulsion] and [disable_propulsion] print, send the
    relay command for relay 1 (state 1, respectively 0) and print again,
    and [emergency_stop] prints its own line and then does what
    [disable_propulsion] does.  None of them makes a receive or changes the
    object, and each does the same under every control authority. *)
Theorem propulsion_relay_unconditional (w : World) :
  let on := snd (enable_propulsion w) in
  let off := snd (disable_propulsion w) in
  let stop := snd (emergency_stop w) in
  (trace on = trace w ++ [Printed ENABLING_PROPULSION;
                          Sent (relay_command (vehicle w) 1 1);
                          Printed (Relay_turned_on 2)] /\
   self on = self w /\ vehicle on = vehicle w) /\
  (trace off = trace w ++ [Printed DISABLING_PROPULSION;
                           Sent (relay_command (vehicle w) 1 0);
                           Printed (Relay_turned_off 2)] /\
   self off = self w /\ vehicle off = vehicle w) /\
  (emergency_stop w =
     disable_propulsion (snd (print EMERGENCY_STOP_DISABLING_PROPULSION w)) /\
   sent stop = sent off /\ self stop = self off /\ vehicle stop = vehicle off) /\
  (forall a,
     sent (snd (enable_propulsion (with_authority a w))) = sent on /\
     sent (snd (disable_propulsion (with_authority a w))) = sent off /\
     sent (snd (emergency_stop (with_authority a w))) = sent stop).
Proof.
  cbv zeta. unfold emergency_stop, disable_propulsion, enable_propulsion,
    set_relay_on, set_relay_off, relay_command, sent, with_authority.
  unmonad. rewrite <- !app_assoc. cbn [app].
  rewrite !sent_in_app. cbn.
  repeat split.
Qed.

(** ** Arming *)

Lemma is_armed_run w :
  is_armed w =
  let hb := next_heartbeat w in
  let w1 := snd (recv_match HEARTBEAT_t w) in
  (armed_answer hb, mkWorld (self w) (vehicle w1) (trace w1 ++ armed_lines hb)).
Proof.
  unfold is_armed, next_heartbeat. unfold bind at 1.
  destruct (recv_match HEARTBEAT_t w) as [[m|] w1] eqn:E; cbv zeta; cbn [fst snd].
  - assert (self w1 = self w /\ type_of m = HEARTBEAT_t) as [S T].
    { unfold recv_match in E. inversion E as [[R W]]. cbn [self]. split; [reflexivity|].
      destruct (telemetry (vehicle w)) as [|[[m'|] sa ca] tel]; cbn [arrives] in R;
        try discriminate.
      destruct m'; cbn in R; [|discriminate]. injection R as <-. reflexivity. }
    destruct m as [bm cm|c]; [|discriminate T].
    unfold ret. cbn [armed_answer shows_armed armed_lines]. rewrite app_nil_r, <- S.
    destruct w1; reflexivity.
  - assert (S : self w1 = self w).
    { unfold recv_match in E. inversion E. reflexivity. }
    unmonad. rewrite S. reflexivity.
Qed.

Lemma arm_vehicle_run w :
  arm_vehicle w =
  let hb := next_heartbeat w in
  let v1 := vehicle (snd (recv_match HEARTBEAT_t w)) in
  let tr := trace w ++ [Printed Arming_vehicle; Sent (arm_command (vehicle w) 1);
                        Received HEARTBEAT_t hb] ++ armed_lines hb in
  if armed_answer hb
  then (true, mkWorld (set_status Status.ARMED (self w)) v1 (tr ++ [Printed VEHICLE_ARMED]))
  else (false, mkWorld (self w) v1 tr).
Proof.
  unfold arm_vehicle, arm_command. unfold bind at 1, print at 1, log at 1.
  unfold bind at 1, command_long_send at 1, bind at 1, target at 1, log at 1.
  cbn [fst snd self vehicle trace].
  unfold bind at 1. rewrite is_armed_run. cbv zeta.
  unfold next_heartbeat. cbn [recv_match fst snd self vehicle trace].
  destruct (armed_answer _); unmonad; rewrite <- !app_assoc; reflexivity.
Qed.

Lemma disarm_vehicle_run w :
  disarm_vehicle w =
  let hb := next_heartbeat w in
  let v1 := vehicle (snd (recv_match HEARTBEAT_t w)) in
  let tr := trace w ++ [Printed DISARMING_VEHICLE; Sent (arm_command (vehicle w) 0);
                        Received HEARTBEAT_t hb] ++ armed_lines hb in
  if armed_answer hb
  then (false, mkWorld (self w) v1 tr)
  else (true, mkWorld (set_status Status.DISARMED (self w)) v1
                (tr ++ [Printed VEHICLE_DISARMED])).
Proof.
  unfold disarm_vehicle, arm_command. unfold bind at 1, print at 1, log at 1.
  unfold bind at 1, command_long_send at 1, bind at 1, target at 1, log at 1.
  cbn [fst snd self vehicle trace].
  unfold bind at 1. rewrite is_armed_run. cbv zeta.
  unfold next_heartbeat. cbn [recv_match fst snd self vehicle trace].
  destruct (armed_answer _); cbn [negb]; unmonad; rewrite <- !app_assoc; reflexivity.
Qed.

(** C8, the failing input of [disarm_vehicle]: with no heartbeat inside
    the second, it answers true and records DISARMED although no heartbeat
    shows the vehicle disarmed. *)
Lemma disarm_succeeds_without_heartbeat :
  let w := connected_boat [None] in
  next_heartbeat w = None /\
  fst (disarm_vehicle w) = true /\
  status (self (snd (disarm_vehicle w))) = Status.DISARMED /\
  ~ (fst (disarm_vehicle w) = true ->
     exists m, next_heartbeat w = Some m /\ shows_armed m = false).
Proof.
  cbv zeta. repeat split.
  intros H. destruct (H eq_refl) as (m & E & _). discriminate E.
Qed.

(** C8, what the code does.  [arm_vehicle] sends the arm command, then
    makes one heartbeat receive, answers true exactly when that heartbeat
    has the safety-armed flag set, and sets the status to ARMED exactly
    then, leaving it alone otherwise: this part is as claimed.
    [is_armed] answers false whenever no heartbeat arrives: as claimed.
    [disarm_vehicle] sends the disarm command, then makes one heartbeat
    receive, and answers true and sets the status to DISARMED when the
    heartbeat has the flag clear, as claimed, but also when no heartbeat
    arrives at all, where [arm_vehicle] answers false and its own
    docstring promises true only if the action succeeded. *)
Theorem arm_disarm_confirmation (w : World) :
  let hb := next_heartbeat w in
  let a := arm_vehicle w in
  let d := disarm_vehicle w in
  (exists rest,
     trace (snd a) = trace w ++ [Printed Arming_vehicle;
                                 Sent (arm_command (vehicle w) 1);
                                 Received HEARTBEAT_t hb] ++ rest /\
     sent_in rest = []) /\
  (fst a = true <-> exists m, hb = Some m /\ shows_armed m = true) /\
  status (self (snd a)) = (if fst a then Status.ARMED else status (self w)) /\
  (exists rest,
     trace (snd d) = trace w ++ [Printed DISARMING_VEHICLE;
                                 Sent (arm_command (vehicle w) 0);
                                 Received HEARTBEAT_t hb] ++ rest /\
     sent_in rest = []) /\
  (fst d = true <-> hb = None \/ exists m, hb = Some m /\ shows_armed m = false) /\
  status (self (snd d)) = (if fst d then Status.DISARMED else status (self w)) /\
  (hb = None -> fst (is_armed w) = false).
Proof.
  cbv zeta. rewrite arm_vehicle_run, disarm_vehicle_run, is_armed_run. cbv zeta.
  destruct (next_heartbeat w) as [m|]; cbn [armed_answer armed_lines].
  - destruct (shows_armed m) eqn:S; cbn [fst snd self trace status set_status];
      rewrite ?app_nil_r.
    + split; [exists [Printed VEHICLE_ARMED]; rewrite <- app_assoc; split; reflexivity|].
      split; [split; [intros _; exists m; split; [reflexivity|exact S]|reflexivity]|].
      split; [reflexivity|].
      split; [exists []; rewrite app_nil_r; split; reflexivity|].
      split; [|split; [reflexivity|discriminate]].
      split; [discriminate|].
      intros [E|(m' & E & S')]; [discriminate|]. injection E as <-. congruence.
    + split; [exists []; rewrite app_nil_r; split; reflexivity|].
      split; [split; [discriminate|]|].
      { intros (m' & E & S'). injection E as <-. congruence. }
      split; [reflexivity|].
      split; [exists [Printed VEHICLE_DISARMED]; rewrite <- app_assoc; split; reflexivity|].
      split; [|split; [reflexivity|discriminate]].
      split; [|reflexivity]. intros _. right. exists m. split; [reflexivity|exact S].
  - cbn [fst snd self trace status set_status].
    split; [exists [Printed No_heartbeat_message_received]; split; reflexivity|].
    split; [split; [discriminate|intros (m' & E & _); discriminate E]|].
    split; [reflexivity|].
    split.
    { exists [Printed No_heartbeat_message_received; Printed VEHICLE_DISARMED].
      rewrite <- app_assoc. split; reflexivity. }
    split; [split; [intros _; left; reflexivity|reflexivity]|].
    split; reflexivity.
Qed.

Lemma arm_disarm_confirmation_witness :
  let w := connected_boat [None] in
  next_heartbeat w = None /\
  fst (is_armed w) = false /\
  fst (arm_vehicle w) = false /\
  fst (disarm_vehicle w) = true /\
  status (self (snd (disarm_vehicle w))) = Status.DISARMED.
Proof.
  cbv zeta.
  pose proof (arm_disarm_confirmation (connected_boat [None])) as H. cbv zeta in H.
  destruct H as (_ & _ & _ & _ & D & S & A).
  assert (T : fst (disarm_vehicle (connected_boat [None])) = true).
  { apply (proj2 D). left. reflexivity. }
  split; [reflexivity|]. split; [apply A; reflexivity|]. split; [reflexivity|].
  split; [exact T|]. rewrite S, T. reflexivity.
Defined.

(** ** The output band *)

Create HintDb boat.

Lemma preserves_ret {A} (a : A) : preserves (ret a).
Proof. intros w H. exact H. Qed.

Lemma preserves_bind {A B} (m : M A) (k : A -> M B) :
  preserves m -> (forall a, preserves (k a)) -> preserves (bind m k).
Proof.
  intros Hm Hk w H. unfold bind. specialize (Hm w H).
  destruct (m w) as [a w1]. apply Hk. exact Hm.
Qed.

Lemma preserves_get {A} (f : Boat -> A) : preserves (get f).
Proof. intros w H. exact H. Qed.

Lemma preserves_target : preserves target.
Proof. intros w H. exact H. Qed.

Lemma preserves_assign f : keeps_setpoints f -> preserves (assign f).
Proof.
  intros K w [[R T] S]. destruct (K (self w)) as [KR KT].
  split; [split|exact S]; cbn; congruence.
Qed.

Lemma safe_log e w :
  safe w ->
  match e with Sent p => packet_in_band p | _ => True end ->
  safe (snd (log e w)).
Proof.
  intros [A S] He. split; [exact A|].
  unfold sent in *. cbn. rewrite sent_in_app. apply Forall_app. split; [exact S|].
  destruct e; cbn; auto.
Qed.

Lemma preserves_print l : preserves (print l).
Proof. intros w H. apply safe_log; [exact H|exact I]. Qed.

Lemma preserves_closed : preserves (log Closed).
Proof. intros w H. apply safe_log; [exact H|exact I]. Qed.

Lemma preserves_recv_match t : preserves (recv_match t).
Proof.
  intros w [A S]. split; [exact A|].
  unfold sent in *. cbn. rewrite sent_in_app. cbn. rewrite app_nil_r. exact S.
Qed.

Lemma preserves_command_long_send c conf params :
  packet_in_band (COMMAND_LONG 0 0 c conf params) ->
  preserves (command_long_send c conf params).
Proof.
  intros P w H. unfold command_long_send. unfold bind, target.
  apply safe_log; [exact H|]. exact P.
Qed.

Lemma keeps_set_status s : keeps_setpoints (set_status s).
Proof. intros b. split; reflexivity. Qed.

Lemma keeps_set_control_authority a : keeps_setpoints (set_control_authority a).
Proof. intros b. split; reflexivity. Qed.

Lemma keeps_set_connected c : keeps_setpoints (set_connected c).
Proof. intros b. split; reflexivity. Qed.

Lemma keeps_set_heartbeat_received c : keeps_setpoints (set_heartbeat_received c).
Proof. intros b. split; reflexivity. Qed.

Lemma keeps_set_rc_channel_11_value c : keeps_setpoints (set_rc_channel_11_value c).
Proof. intros b. split; reflexivity. Qed.

#[local] Hint Resolve preserves_ret preserves_get preserves_target preserves_print
  preserves_closed preserves_recv_match keeps_set_status keeps_set_control_authority
  keeps_set_connected keeps_set_heartbeat_received keeps_set_rc_channel_11_value
  preserves_assign : boat.

(* Split a computation along its binds and branches. *)
Ltac preserve :=
  repeat first
    [ solve [auto with boat]
    | apply preserves_bind; [|intros ?]
    | match goal with
      | |- preserves (if ?c then _ else _) => destruct c
      | |- preserves (match ?o with Some _ => _ | None => _ end) => destruct o
      | |- preserves (match ?m with HEARTBEAT _ _ => _ | RC_CHANNELS _ => _ end) =>
          destruct m
      end ].

Lemma preserves_is_armed : preserves is_armed.
Proof. unfold is_armed. preserve. Qed.

Lemma preserves_get_flight_mode : preserves get_flight_mode.
Proof. unfold get_flight_mode. preserve. Qed.

Lemma preserves_poll : preserves __poll_rc_mode_switch.
Proof. unfold __poll_rc_mode_switch. preserve. Qed.

#[local] Hint Resolve preserves_is_armed preserves_get_flight_mode preserves_poll : boat.

Lemma preserves_gate : preserves __should_allow_rc_override.
Proof. unfold __should_allow_rc_override. preserve. Qed.

Lemma override_in_band v b : setpoints_accepted b -> packet_in_band (override_of v b).
Proof.
  intros [R T]. split; [|cbn; eauto].
  unfold override_of, pwm_values, accepted in *.
  cbn [filter].
  destruct (Z.eqb_spec (current_rudder_value b) 0); [lia|].
  destruct (Z.eqb_spec (current_throttle_value b) 0); [lia|].
  cbn. unfold in_output_band. repeat constructor; lia.
Qed.

Lemma preserves_update_steering : preserves __update_steering.
Proof.
  intros w [A S]. rewrite update_steering_run. cbn [snd].
  split; [exact A|]. unfold sent in *. cbn [trace]. rewrite sent_in_app.
  apply Forall_app. split; [exact S|]. cbn. constructor; [|constructor].
  apply override_in_band. exact A.
Qed.

#[local] Hint Resolve preserves_gate preserves_update_steering : boat.

Lemma preserves_check_rc_mode : preserves check_rc_mode.
Proof. unfold check_rc_mode, __keep_alive_rc_override. preserve. Qed.

Lemma preserves_gate_and_push said : preserves (gate_and_push said).
Proof. unfold gate_and_push. preserve. Qed.

Lemma relay_packet_in_band ts tc conf params :
  packet_in_band (COMMAND_LONG ts tc MAV_CMD_DO_SET_RELAY conf params).
Proof. split; [constructor|exact I]. Qed.

Lemma arm_packet_in_band ts tc conf params :
  packet_in_band (COMMAND_LONG ts tc MAV_CMD_COMPONENT_ARM_DISARM conf params).
Proof. split; [constructor|exact I]. Qed.

Lemma servo_packet_in_band ts tc conf n p rest :
  packet_in_band (COMMAND_LONG ts tc MAV_CMD_DO_SET_SERVO conf
                    (n :: clamp p 1000 2000 :: rest)).
Proof.
  split; [|exact I]. constructor; [apply clamp_in_output_band|constructor].
Qed.

#[local] Hint Resolve preserves_command_long_send relay_packet_in_band
  arm_packet_in_band servo_packet_in_band : boat.

Lemma preserves_arm_vehicle : preserves arm_vehicle.
Proof. unfold arm_vehicle. preserve. Qed.

Lemma preserves_disarm_vehicle : preserves disarm_vehicle.
Proof. unfold disarm_vehicle. preserve. Qed.

Lemma preserves_close_connection : preserves close_connection.
Proof. unfold close_connection. preserve. Qed.

Lemma preserves_set_relay_on n : preserves (set_relay_on n).
Proof. unfold set_relay_on. preserve. Qed.

Lemma preserves_set_relay_off n : preserves (set_relay_off n).
Proof. unfold set_relay_off. preserve. Qed.

#[local] Hint Resolve preserves_set_relay_on preserves_set_relay_off : boat.

Lemma preserves_propulsion :
  preserves enable_propulsion /\ preserves disable_propulsion /\ preserves emergency_stop.
Proof.
  unfold emergency_stop, enable_propulsion, disable_propulsion.
  split; [|split]; preserve.
Qed.

Lemma preserves_set_raw_servo n p : preserves (set_raw_servo n p).
Proof.
  unfold set_raw_servo. rewrite max_min_is_clamp. preserve.
Qed.

Lemma safe_try_store store v w b' :
  (forall z b, current_rudder_value (store z b) = z /\
               current_throttle_value (store z b) = current_throttle_value b
            \/ current_throttle_value (store z b) = z /\
               current_rudder_value (store z b) = current_rudder_value b) ->
  safe w ->
  try_store store v (self w) = Some b' ->
  safe (mkWorld b' (vehicle w) (trace w)).
Proof.
  intros St [[R T] S] E. rewrite try_store_eq in E.
  destruct (PyBuiltin.int v) as [z|]; [|discriminate]. injection E as <-.
  split; [|exact S]. cbn [self].
  destruct ((z >=? 1100) && (z <=? 1900)) eqn:B; [|split; assumption].
  apply band_test in B.
  destruct (St z (self w)) as [[E1 E2]|[E1 E2]]; split; congruence.
Qed.

Lemma preserves_set_rudder v : preserves (set_rudder v).
Proof.
  intros w H. rewrite set_rudder_run.
  destruct (connected (self w)); [|apply preserves_print; exact H].
  destruct (try_store _ _ _) as [b'|] eqn:E; [|apply preserves_print; exact H].
  apply preserves_gate_and_push.
  apply (safe_try_store set_current_rudder_value v w b'); auto.
Qed.

Lemma preserves_set_throttle v : preserves (set_throttle v).
Proof.
  intros w H. rewrite set_throttle_run.
  destruct (connected (self w)); [|apply preserves_print; exact H].
  destruct (try_store _ _ _) as [b'|] eqn:E; [|apply preserves_print; exact H].
  apply preserves_gate_and_push.
  apply (safe_try_store set_current_throttle_value v w b'); auto.
Qed.

Lemma preserves_wait_for_heartbeat : preserves wait_for_heartbeat.
Proof.
  unfold wait_for_heartbeat. apply preserves_bind; [auto with boat|intros _].
  intros w [A S]. destruct (wait_heartbeat _ _ _) as [[m|] v'].
  - set (w1 := mkWorld _ _ _). assert (H1 : safe w1) by (split; assumption).
    revert H1. generalize w1. change (preserves
      (log (Received HEARTBEAT_t (Some m));; assign (set_heartbeat_received true);;
       assign (set_connected true);; print Heartbeat_received;; ret Returned)).
    preserve. intros w2 H2. apply safe_log; [exact H2|exact I].
  - split; assumption.
Qed.

Lemma preserves_perform c : preserves (perform c).
Proof.
  destruct preserves_propulsion as (En & Dis & Em).
  destruct c; cbn [perform]; unfold returned, set_throttle_differential,
    set_speed, change_heading;
    auto using preserves_wait_for_heartbeat with boat;
    apply preserves_bind; auto using preserves_check_rc_mode, preserves_arm_vehicle,
      preserves_disarm_vehicle, preserves_close_connection, preserves_set_rudder,
      preserves_set_throttle, preserves_set_raw_servo with boat.
Qed.

Lemma safe_run calls : forall w, safe w -> safe (run calls w).
Proof.
  induction calls as [|c calls IH]; intros w H; cbn [run]; [exact H|].
  pose proof (preserves_perform c w H) as H1.
  destruct (perform c w) as [[| |] w1]; cbn [snd] in H1; auto.
Qed.

Lemma init_setpoints cs bd v :
  current_rudder_value (self (__init__ cs bd v)) = 1500 /\
  current_throttle_value (self (__init__ cs bd v)) = 1500 /\
  sent (__init__ cs bd v) = [].
Proof.
  unfold __init__, __connect, is_armed, get_flight_mode, recv_match, after_receive, sent.
  unmonad.
  destruct (telemetry v) as [|[[[bm cm|c]|] sa ca] [|[[[bm' cm'|c']|] sa' ca'] tel]];
    cbn; repeat match goal with |- context [if ?c then _ else _] => destruct c end;
    cbn; repeat split.
Qed.

Lemma sent_update_steering w :
  sent (snd (__update_steering w)) = sent w ++ [override_of (vehicle w) (self w)].
Proof.
  rewrite update_steering_run. unfold sent. cbn [snd trace]. rewrite sent_in_app.
  reflexivity.
Qed.

Lemma sent_set_raw_servo n p w :
  sent (snd (set_raw_servo n p w)) =
  sent w ++
  if connected (self w)
  then [COMMAND_LONG (target_system (vehicle w)) (target_component (vehicle w))
          MAV_CMD_DO_SET_SERVO 0 [n; clamp p 1000 2000; 0; 0; 0; 0; 0]]
  else [].
Proof.
  rewrite set_raw_servo_run. unfold sent.
  destruct (connected (self w)); unmonad; rewrite sent_in_app; reflexivity.
Qed.

(** C1.  A boat starts with both setpoints at 1500.  After any sequence
    of public calls on it, both setpoints are within [1100,1900] and every
    PWM value handed to the link is within [1000,2000]: each override sent
    has the shape (rudder, throttle, throttle, 0, 0, 0, 0, 0) with both
    values within [1100,1900], the override send emits the stored
    setpoints, and [set_raw_servo] sends its value clamped into
    [1000,2000]. *)
Theorem pwm_always_in_output_band
  (cs : string) (bd : Z) (v : Vehicle) (calls : list call) :
  let w0 := __init__ cs bd v in
  let w := run calls w0 in
  (current_rudder_value (self w0) = 1500 /\ current_throttle_value (self w0) = 1500) /\
  (accepted (current_rudder_value (self w)) /\
   accepted (current_throttle_value (self w))) /\
  (forall w1, sent (snd (__update_steering w1)) =
              sent w1 ++ [override_of (vehicle w1) (self w1)]) /\
  (forall n p w1,
     sent (snd (set_raw_servo n p w1)) =
     sent w1 ++
     if connected (self w1)
     then [COMMAND_LONG (target_system (vehicle w1)) (target_component (vehicle w1))
             MAV_CMD_DO_SET_SERVO 0 [n; clamp p 1000 2000; 0; 0; 0; 0; 0]]
     else []) /\
  Forall (fun p => Forall (fun x => 1000 <= x <= 2000) (pwm_values p) /\ override_shape p)
         (sent w).
Proof.
  cbv zeta. destruct (init_setpoints cs bd v) as (R & T & S).
  assert (H0 : safe (__init__ cs bd v)).
  { split; [split|].
    - rewrite R. unfold accepted. lia.
    - rewrite T. unfold accepted. lia.
    - rewrite S. constructor. }
  destruct (safe_run calls _ H0) as [A P].
  split; [split; assumption|]. split; [exact A|].
  split; [exact sent_update_steering|]. split; [exact sent_set_raw_servo|].
  exact P.
Qed.

(** ** Scenarios *)

(* Authority UNDEFINED, channel 11 arrives as 1700: the poll of the gate
   sets REMOTE, and [set_rudder 1600] stores 1600 and sends the override
   (1600, 1500, 1500, 0, 0, 0, 0, 0). *)
Example scenario_undefined_then_remote :
  let w := with_authority ControlAuthority.UNDEFINED
             (connected_boat [Some (RC_CHANNELS (Some 1700))]) in
  let w' := snd (set_rudder (PyInt 1600) w) in
  control_authority (self w') = REMOTE /\
  current_rudder_value (self w') = 1600 /\
  sent w' = sent w ++ [RC_CHANNELS_OVERRIDE 1 0 [1600; 1500; 1500; 0; 0; 0; 0; 0]].
Proof. repeat split. Qed.

(* Channel 11 at 1600 and then at 1400: REMOTE, then MANUAL. *)
Example scenario_remote_then_manual :
  let w := connected_boat [Some (RC_CHANNELS (Some 1600)); Some (RC_CHANNELS (Some 1400))] in
  let w1 := snd (__poll_rc_mode_switch w) in
  let w2 := snd (__poll_rc_mode_switch w1) in
  control_authority (self w1) = REMOTE /\ control_authority (self w2) = MANUAL.
Proof. repeat split. Qed.

(* Under MANUAL an accepted value is stored and nothing is sent. *)
Example scenario_manual_stores_without_sending :
  let w := with_authority MANUAL (connected_boat []) in
  let w' := snd (set_throttle (PyInt 1600) w) in
  current_throttle_value (self w') = 1600 /\ sent w' = sent w.
Proof. repeat split. Qed.

(* Not connected: [set_throttle 1600] changes no setpoint and sends nothing. *)
Example scenario_not_connected :
  let w := constructed [] in
  let w' := snd (set_throttle (PyInt 1600) w) in
  connected (self w) = false /\ self w' = self w /\ sent w' = sent w.
Proof. repeat split. Qed.

(* A value [int()] raises on: the setpoint stays and nothing is sent. *)
Example scenario_not_coercible :
  let w := connected_boat [] in
  let w' := snd (set_rudder (PyObject None) w) in
  self w' = self w /\ sent w' = sent w /\
  trace w' = trace w ++ [Printed (Invalid_steering_value (PyObject None))].
Proof. repeat split. Qed.

(* The differential throttle raises whatever it is handed. *)
Example scenario_throttle_differential (l r : pyval) (w : World) :
  set_throttle_differential l r w = (Raised_NotImplementedError, w).
Proof. reflexivity. Qed.

(* A vehicle whose heartbeat carries the safety-armed flag arms. *)
Example scenario_arm :
  let w := connected_boat [Some (HEARTBEAT 129 0)] in
  fst (arm_vehicle w) = true /\ status (self (snd (arm_vehicle w))) = Status.ARMED.
Proof. repeat split. Qed.

(** ** Properties of the object kept by the methods *)

Lemma keeps_ret {A} Q (a : A) : keeps Q (ret a).
Proof. intros w H. exact H. Qed.

Lemma keeps_bind {A B} Q (m : M A) (k : A -> M B) :
  keeps Q m -> (forall a, keeps Q (k a)) -> keeps Q (bind m k).
Proof.
  intros Hm Hk w H. unfold bind. specialize (Hm w H).
  destruct (m w) as [a w1]. apply Hk. exact Hm.
Qed.

Lemma keeps_get {A} Q (f : Boat -> A) : keeps Q (get f).
Proof. intros w H. exact H. Qed.

Lemma keeps_target Q : keeps Q target.
Proof. intros w H. exact H. Qed.

Lemma keeps_log Q e : keeps Q (log e).
Proof. intros w H. exact H. Qed.

Lemma keeps_print Q l : keeps Q (print l).
Proof. intros w H. exact H. Qed.

Lemma keeps_recv_match Q t : keeps Q (recv_match t).
Proof. intros w H. exact H. Qed.

Lemma keeps_assign Q f : (forall b, Q b -> Q (f b)) -> keeps Q (assign f).
Proof. intros K w H. apply K. exact H. Qed.

Lemma keeps_command_long_send Q c conf params : keeps Q (command_long_send c conf params).
Proof. intros w H. exact H. Qed.

Lemma keeps_rc_channels_override_send Q chans : keeps Q (rc_channels_override_send chans).
Proof. intros w H. exact H. Qed.

(* Split a computation along its binds and branches, down to the
   primitives; an assignment is left to the hypotheses at hand. *)
Ltac keep :=
  repeat first
    [ apply keeps_ret | apply keeps_get | apply keeps_target | apply keeps_print
    | apply keeps_log | apply keeps_recv_match | apply keeps_command_long_send
    | apply keeps_rc_channels_override_send
    | apply keeps_assign; solve [auto]
    | apply keeps_bind; [|intros ?]
    | match goal with
      | |- keeps _ (if ?c then _ else _) => destruct c
      | |- keeps _ (match ?o with Some _ => _ | None => _ end) => destruct o
      | |- keeps _ (match ?m with HEARTBEAT _ _ => _ | RC_CHANNELS _ => _ end) =>
          destruct m
      end ].

Section Keeps.

Variable Q : Boat -> Prop.

Hypothesis Q_sample : forall c b, Q b -> Q (set_rc_channel_11_value c b).
Hypothesis Q_remote : forall b, Q b -> Q (set_control_authority REMOTE b).
Hypothesis Q_manual : forall b, Q b -> Q (set_control_authority MANUAL b).
Hypothesis Q_gate_poll :
  forall w, Q (self w) ->
            control_authority (self w) = ControlAuthority.UNDEFINED ->
            Q (self (snd (__poll_rc_mode_switch w))).
Hypothesis Q_armed : forall b, Q b -> Q (set_status Status.ARMED b).
Hypothesis Q_disarmed : forall b, Q b -> Q (set_status Status.DISARMED b).
Hypothesis Q_closed : forall b, Q b -> Q (set_connected false b).
Hypothesis Q_connected :
  forall b, Q b -> Q (set_connected true (set_heartbeat_received true b)).
Hypothesis Q_rudder : forall z b, accepted z -> Q b -> Q (set_current_rudder_value z b).
Hypothesis Q_throttle : forall z b, accepted z -> Q b -> Q (set_current_throttle_value z b).

Lemma keeps_is_armed : keeps Q is_armed.
Proof. unfold is_armed. keep. Qed.

Lemma keeps_get_flight_mode : keeps Q get_flight_mode.
Proof. unfold get_flight_mode. keep. Qed.

Lemma keeps_poll : keeps Q __poll_rc_mode_switch.
Proof. unfold __poll_rc_mode_switch. keep. Qed.

Lemma keeps_update_steering : keeps Q __update_steering.
Proof. unfold __update_steering. keep. Qed.

Lemma keeps_gate : keeps Q __should_allow_rc_override.
Proof.
  intros w H. rewrite should_allow_rc_override_run. cbv zeta. cbn [snd self].
  unfold decision_world.
  destruct (ControlAuthority.eqb _ _) eqn:E; [|exact H].
  apply ControlAuthority_eqb_eq in E. apply Q_gate_poll; assumption.
Qed.

Lemma keeps_gate_and_push said : keeps Q (gate_and_push said).
Proof.
  unfold gate_and_push. apply keeps_bind; [exact keeps_gate|intros [|]].
  - apply keeps_bind; [exact keeps_update_steering|intros _; apply keeps_print].
  - apply keeps_print.
Qed.

Lemma keeps_set_rudder v : keeps Q (set_rudder v).
Proof.
  intros w H. rewrite set_rudder_run.
  destruct (connected (self w)); [|exact H].
  destruct (try_store _ _ _) as [b'|] eqn:E; [|exact H].
  apply keeps_gate_and_push. cbn [self].
  rewrite try_store_eq in E. destruct (PyBuiltin.int v) as [z|]; [|discriminate].
  injection E as <-.
  destruct ((z >=? 1100) && (z <=? 1900)) eqn:B; [|exact H].
  apply Q_rudder; [apply band_test; exact B|exact H].
Qed.

Lemma keeps_set_throttle v : keeps Q (set_throttle v).
Proof.
  intros w H. rewrite set_throttle_run.
  destruct (connected (self w)); [|exact H].
  destruct (try_store _ _ _) as [b'|] eqn:E; [|exact H].
  apply keeps_gate_and_push. cbn [self].
  rewrite try_store_eq in E. destruct (PyBuiltin.int v) as [z|]; [|discriminate].
  injection E as <-.
  destruct ((z >=? 1100) && (z <=? 1900)) eqn:B; [|exact H].
  apply Q_throttle; [apply band_test; exact B|exact H].
Qed.

Lemma keeps_check_rc_mode : keeps Q check_rc_mode.
Proof.
  unfold check_rc_mode, __keep_alive_rc_override.
  apply keeps_bind; [exact keeps_poll|intros _].
  apply keeps_bind; [exact keeps_gate|intros [|]].
  - apply keeps_bind; [apply keeps_print|intros _; exact keeps_update_steering].
  - apply keeps_ret.
Qed.

Lemma keeps_arm_vehicle : keeps Q arm_vehicle.
Proof. unfold arm_vehicle, is_armed. keep. Qed.

Lemma keeps_disarm_vehicle : keeps Q disarm_vehicle.
Proof. unfold disarm_vehicle, is_armed. keep. Qed.

Lemma keeps_close_connection : keeps Q close_connection.
Proof. unfold close_connection. keep. Qed.

Lemma keeps_set_relay_on n : keeps Q (set_relay_on n).
Proof. unfold set_relay_on. keep. Qed.

Lemma keeps_set_relay_off n : keeps Q (set_relay_off n).
Proof. unfold set_relay_off. keep. Qed.

Lemma keeps_enable_propulsion : keeps Q enable_propulsion.
Proof. unfold enable_propulsion, set_relay_on. keep. Qed.

Lemma keeps_disable_propulsion : keeps Q disable_propulsion.
Proof. unfold disable_propulsion, set_relay_off. keep. Qed.

Lemma keeps_emergency_stop : keeps Q emergency_stop.
Proof. unfold emergency_stop, disable_propulsion, set_relay_off. keep. Qed.

Lemma keeps_set_raw_servo n p : keeps Q (set_raw_servo n p).
Proof. unfold set_raw_servo. keep. Qed.

Lemma keeps_wait_for_heartbeat : keeps Q wait_for_heartbeat.
Proof.
  intros w H. unfold wait_for_heartbeat. unfold bind at 1, print, log.
  cbn [self vehicle trace].
  destruct (wait_heartbeat _ _ _) as [[m|] v']; [|exact H].
  unmonad. apply Q_connected. exact H.
Qed.

Lemma keeps_perform c : keeps Q (perform c).
Proof.
  destruct c; cbn [perform]; unfold returned, set_throttle_differential,
    set_speed, change_heading;
    try (apply keeps_bind; [|intros ?; apply keeps_ret]);
    auto using keeps_ret, keeps_check_rc_mode, keeps_wait_for_heartbeat,
      keeps_arm_vehicle, keeps_disarm_vehicle, keeps_is_armed,
      keeps_close_connection, keeps_set_relay_on, keeps_set_relay_off,
      keeps_emergency_stop, keeps_disable_propulsion, keeps_enable_propulsion,
      keeps_set_rudder, keeps_set_throttle, keeps_set_raw_servo,
      keeps_get_flight_mode.
Qed.

Lemma keeps_run calls : forall w, Q (self w) -> Q (self (run calls w)).
Proof.
  induction calls as [|c calls IH]; intros w H; cbn [run]; [exact H|].
  pose proof (keeps_perform c w H) as H1.
  destruct (perform c w) as [[| |] w1]; cbn [snd] in H1; auto.
Qed.

End Keeps.

(** ** The constructor and what every run keeps *)

(* An assignment to another field leaves the property as it is. *)
Ltac unchanged :=
  let H := fresh in
  first [ intros ? ? ? H; exact H | intros ? ? H; exact H | intros ? H; exact H ].

(* The constructor on each shape of its two receive windows. *)
Ltac init_cases v :=
  unfold __init__, __connect, is_armed, get_flight_mode, recv_match, after_receive,
    sent, window_armed, shows_armed;
  unmonad;
  destruct (telemetry v) as [|[[[? ?|?]|] ? ?] [|[[[? ?|?]|] ? ?] ?]];
  cbn;
  repeat match goal with |- context [if ?c then _ else _] => destruct c end;
  cbn.

Lemma init_authority cs bd v : control_authority (self (__init__ cs bd v)) = REMOTE.
Proof. init_cases v; reflexivity. Qed.

Lemma init_status cs bd v :
  status (self (__init__ cs bd v)) = Status.ARMED \/
  status (self (__init__ cs bd v)) = Status.UNDEFINED.
Proof. init_cases v; auto. Qed.

Lemma init_flags cs bd v :
  connected (self (__init__ cs bd v)) = false /\
  heartbeat_received (self (__init__ cs bd v)) = false.
Proof. init_cases v; split; reflexivity. Qed.

(** X1.  Whatever the link delivers, a boat just constructed has the
    authority REMOTE (the flight mode of the second heartbeat read is
    assigned and then overwritten), is neither connected nor marked as
    having received a heartbeat, has status ARMED when the first receive
    window holds a heartbeat with the safety-armed flag and UNDEFINED
    otherwise, has sent nothing, and has used up two receive windows: the
    connection object is the one those two receives leave. *)
Theorem init_state (cs : string) (bd : Z) (v : Vehicle) :
  let w := __init__ cs bd v in
  control_authority (self w) = REMOTE /\
  status (self w) =
    (if window_armed (telemetry v) then Status.ARMED else Status.UNDEFINED) /\
  connected (self w) = false /\
  heartbeat_received (self w) = false /\
  rc_channel_11_value (self w) = None /\
  sent w = [] /\
  vehicle w = after_receive (after_receive v) /\
  telemetry (vehicle w) = tl (tl (telemetry v)).
Proof.
  cbv zeta.
  assert (V : vehicle (__init__ cs bd v) = after_receive (after_receive v)).
  { unfold __init__, __connect, is_armed, get_flight_mode. unmonad.
    set (r1 := recv_match HEARTBEAT_t _).
    assert (V1 : vehicle (snd r1) = after_receive v) by reflexivity.
    destruct r1 as [[[bm cm|c]|] w1]; cbn [snd] in V1; unmonad;
      match goal with |- context [recv_match HEARTBEAT_t ?w0] =>
        set (r2 := recv_match HEARTBEAT_t w0);
        assert (V2 : vehicle (snd r2) = after_receive (vehicle w0)) by reflexivity
      end;
      cbn [vehicle] in V2; rewrite V1 in V2;
      destruct r2 as [[[bm' cm'|c']|] w2]; cbn [snd] in V2; unmonad;
      repeat match goal with |- context [if ?c then _ else _] => destruct c end;
      unmonad; exact V2. }
  rewrite V, !after_receive_telemetry.
  init_cases v; repeat split.
Qed.

(* With the authority settled the gate reads it and nothing else. *)
Lemma gate_when_settled w :
  control_authority (self w) <> ControlAuthority.UNDEFINED ->
  __should_allow_rc_override w =
  (negb (ControlAuthority.eqb (control_authority (self w)) MANUAL),
   mkWorld (self w) (vehicle w)
     (trace w ++ [Printed (Authority_value
                             (ControlAuthority.value (control_authority (self w))))])).
Proof.
  intros D. rewrite should_allow_rc_override_run. cbv zeta. unfold decision_world.
  destruct (control_authority (self w)) eqn:E; [congruence| | |];
    cbn [ControlAuthority.eqb]; rewrite E; reflexivity.
Qed.

(** X2.  After any sequence of public calls on a constructed boat the
    authority is MANUAL or REMOTE, never UNDEFINED or AUTOMATIC; the gate
    therefore never polls there: it reads no telemetry, leaves the object
    alone, and allows the override exactly under REMOTE. *)
Theorem authority_manual_or_remote
  (cs : string) (bd : Z) (v : Vehicle) (calls : list call) :
  let w := run calls (__init__ cs bd v) in
  let g := __should_allow_rc_override w in
  (control_authority (self w) = MANUAL \/ control_authority (self w) = REMOTE) /\
  polls (snd g) = polls w /\
  vehicle (snd g) = vehicle w /\
  self (snd g) = self w /\
  fst g = ControlAuthority.eqb (control_authority (self w)) REMOTE.
Proof.
  cbv zeta.
  assert (A : control_authority (self (run calls (__init__ cs bd v))) = MANUAL \/
              control_authority (self (run calls (__init__ cs bd v))) = REMOTE).
  { apply (keeps_run
             (fun b => control_authority b = MANUAL \/ control_authority b = REMOTE));
      try (intros; cbn; tauto).
    - intros w [H|H] U; congruence.
    - right. apply init_authority. }
  split; [exact A|].
  rewrite gate_when_settled by (destruct A as [A|A]; rewrite A; discriminate).
  cbn [fst snd self vehicle]. unfold polls. cbn [trace].
  rewrite polls_in_app. cbn [polls_in].
  split; [lia|]. split; [reflexivity|]. split; [reflexivity|].
  destruct A as [A|A]; rewrite A; reflexivity.
Qed.

(** X3.  After any sequence of public calls on a constructed boat the
    status is UNDEFINED, ARMED or DISARMED: no call, [emergency_stop]
    included, ever records EMERGENCY. *)
Theorem status_never_emergency
  (cs : string) (bd : Z) (v : Vehicle) (calls : list call) :
  status (self (run calls (__init__ cs bd v))) <> Status.EMERGENCY.
Proof.
  apply (keeps_run (fun b => status b <> Status.EMERGENCY));
    try (intros; cbn; solve [assumption | discriminate]).
  - intros w H _. revert H.
    apply (keeps_poll (fun b => status b <> Status.EMERGENCY)); unchanged.
  - destruct (init_status cs bd v) as [E|E]; rewrite E; discriminate.
Qed.

(** X4.  After any sequence of public calls on a constructed boat, a boat
    that is connected has received a heartbeat; and once the heartbeat
    flag is set no call clears it, [close_connection] included. *)
Theorem connected_has_heartbeat
  (cs : string) (bd : Z) (v : Vehicle) (calls : list call) :
  (connected (self (run calls (__init__ cs bd v))) = true ->
   heartbeat_received (self (run calls (__init__ cs bd v))) = true) /\
  (forall c w, heartbeat_received (self w) = true ->
               heartbeat_received (self (snd (perform c w))) = true).
Proof.
  split.
  - apply (keeps_run (fun b => connected b = true -> heartbeat_received b = true));
      try (intros; cbn in *; solve [auto | discriminate]).
    + intros w H _. revert H.
      apply (keeps_poll (fun b => connected b = true -> heartbeat_received b = true));
        unchanged.
    + destruct (init_flags cs bd v) as [C _]. rewrite C. discriminate.
  - intros c. apply (keeps_perform (fun b => heartbeat_received b = true));
      try (intros; cbn in *; solve [auto]).
    intros w H _. revert H.
    apply (keeps_poll (fun b => heartbeat_received b = true)); unchanged.
Qed.

Lemma connected_has_heartbeat_witness :
  let w := run [call_wait_for_heartbeat; call_set_rudder (PyInt 1600)]
               (constructed [Some (HEARTBEAT 0 0)]) in
  connected (self w) = true /\ heartbeat_received (self w) = true.
Proof.
  cbv zeta. split; [reflexivity|].
  apply (proj1 (connected_has_heartbeat "/dev/cu.usbmodem2101" 115200
                  (link [None; None; Some (HEARTBEAT 0 0)])
                  [call_wait_for_heartbeat; call_set_rudder (PyInt 1600)])).
  reflexivity.
Defined.

(** ** Waiting for the first heartbeat *)

Lemma wait_heartbeat_found tel : forall ts tc m v',
  wait_heartbeat ts tc tel = (Some m, v') ->
  exists pre win,
    tel = pre ++ win :: telemetry v' /\
    existsb is_heartbeat pre = false /\
    is_heartbeat win = true /\
    arrives win = Some m /\
    target_system v' = system_after win /\
    target_component v' = component_after win.
Proof.
  induction tel as [|win tel IH]; intros ts tc m v' E; [discriminate|].
  cbn [wait_heartbeat] in E.
  destruct (arrives win) as [[bm cm|c]|] eqn:A.
  - injection E as <- <-. exists [], win. unfold is_heartbeat. rewrite A. repeat split.
  - destruct (IH _ _ m v' E) as (pre & win' & -> & N & H).
    exists (win :: pre), win'. cbn [existsb]. unfold is_heartbeat at 1. rewrite A.
    split; [reflexivity|]. split; [exact N|exact H].
  - destruct (IH _ _ m v' E) as (pre & win' & -> & N & H).
    exists (win :: pre), win'. cbn [existsb]. unfold is_heartbeat at 1. rewrite A.
    split; [reflexivity|]. split; [exact N|exact H].
Qed.

Lemma wait_heartbeat_none tel : forall ts tc,
  fst (wait_heartbeat ts tc tel) = None <-> existsb is_heartbeat tel = false.
Proof.
  induction tel as [|win tel IH]; intros ts tc; [split; reflexivity|].
  cbn [wait_heartbeat existsb]. unfold is_heartbeat at 1.
  destruct (arrives win) as [[bm cm|c]|]; cbn [fst orb];
    [split; discriminate|apply IH|apply IH].
Qed.

Lemma wait_for_heartbeat_run w :
  wait_for_heartbeat w =
  let v := vehicle w in
  match wait_heartbeat (target_system v) (target_component v) (telemetry v) with
  | (Some m, v') =>
      (Returned,
       mkWorld (set_connected true (set_heartbeat_received true (self w))) v'
               (trace w ++ [Printed Waiting_for_vehicle_heartbeat;
                            Received HEARTBEAT_t (Some m);
                            Printed Heartbeat_received]))
  | (None, v') =>
      (Blocked, mkWorld (self w) v' (trace w ++ [Printed Waiting_for_vehicle_heartbeat]))
  end.
Proof.
  unfold wait_for_heartbeat. unfold bind at 1, print at 1, log at 1.
  cbn [self vehicle trace]. cbv zeta.
  destruct (wait_heartbeat _ _ _) as [[m|] v']; [|reflexivity].
  unmonad. rewrite <- !app_assoc. reflexivity.
Qed.

(** X5.  [wait_for_heartbeat] sends nothing.  On a link whose remaining
    receive windows hold no heartbeat it never returns and the object
    stays as it is.  Otherwise it returns having set both the connected
    and the heartbeat flag and nothing else, and the link is left right
    after the first window that holds a heartbeat, with the addressing
    that window leaves: the windows before it held none. *)
Theorem wait_for_heartbeat_spec (w : World) :
  let r := wait_for_heartbeat w in
  let tel := telemetry (vehicle w) in
  sent (snd r) = sent w /\
  (existsb is_heartbeat tel = false ->
     fst r = Blocked /\ self (snd r) = self w) /\
  (existsb is_heartbeat tel = true ->
     fst r = Returned /\
     self (snd r) = set_connected true (set_heartbeat_received true (self w)) /\
     exists pre win,
       tel = pre ++ win :: telemetry (vehicle (snd r)) /\
       existsb is_heartbeat pre = false /\
       is_heartbeat win = true /\
       target_system (vehicle (snd r)) = system_after win /\
       target_component (vehicle (snd r)) = component_after win).
Proof.
  cbv zeta. rewrite wait_for_heartbeat_run. cbv zeta.
  pose proof (wait_heartbeat_none (telemetry (vehicle w))
                (target_system (vehicle w)) (target_component (vehicle w))) as Z0.
  destruct (wait_heartbeat _ _ (telemetry (vehicle w))) as [[m|] v'] eqn:E.
  - destruct (wait_heartbeat_found _ _ _ _ _ E) as (pre & win & T & N & H & _ & S1 & S2).
    cbn [fst snd self vehicle]. split; [|split].
    + unfold sent. cbn [trace]. rewrite sent_in_app. cbn. apply app_nil_r.
    + intros F. apply Z0 in F. discriminate F.
    + intros _. split; [reflexivity|]. split; [reflexivity|].
      exists pre, win. repeat split; assumption.
  - cbn [fst snd self vehicle]. split; [|split].
    + unfold sent. cbn [trace]. rewrite sent_in_app. cbn. apply app_nil_r.
    + intros _. split; reflexivity.
    + intros T. cbn [fst] in Z0. rewrite (proj1 Z0 eq_refl) in T. discriminate T.
Qed.

Lemma wait_for_heartbeat_spec_witness :
  let w := constructed [None; Some (RC_CHANNELS (Some 1700)); Some (HEARTBEAT 0 0); None] in
  existsb is_heartbeat (telemetry (vehicle w)) = true /\
  fst (wait_for_heartbeat w) = Returned /\
  existsb is_heartbeat (telemetry (vehicle (constructed []))) = false /\
  fst (wait_for_heartbeat (constructed [])) = Blocked.
Proof.
  cbv zeta. split; [reflexivity|]. split.
  - apply (proj2 (proj2 (wait_for_heartbeat_spec
             (constructed [None; Some (RC_CHANNELS (Some 1700));
                           Some (HEARTBEAT 0 0); None])))).
    reflexivity.
  - split; [reflexivity|].
    apply (proj1 (proj2 (wait_for_heartbeat_spec (constructed [])))).
    reflexivity.
Defined.

(** ** Which calls assign which field *)

(* The side conditions of the [keeps] lemmas for a property [Q] that no
   assignment of the method at hand touches. *)
Ltac frame_premise Q :=
  first
    [ unchanged
    | let H := fresh in
      intros ? H _; revert H; apply (keeps_poll Q); unchanged ].

(* A call that returns keeps what its method keeps. *)
Ltac by_method Q :=
  cbn [perform]; unfold returned, set_throttle_differential, set_speed, change_heading;
  try (apply keeps_bind; [|intros ?; apply keeps_ret]);
  first
    [ apply keeps_ret
    | apply keeps_is_armed
    | apply keeps_get_flight_mode
    | apply keeps_set_raw_servo
    | apply keeps_set_relay_on
    | apply keeps_set_relay_off
    | apply keeps_enable_propulsion
    | apply keeps_disable_propulsion
    | apply keeps_emergency_stop
    | apply keeps_check_rc_mode; frame_premise Q
    | apply keeps_arm_vehicle; frame_premise Q
    | apply keeps_disarm_vehicle; frame_premise Q
    | apply keeps_close_connection; frame_premise Q
    | apply keeps_wait_for_heartbeat; frame_premise Q
    | apply keeps_set_rudder; frame_premise Q
    | apply keeps_set_throttle; frame_premise Q ].

(** X6.  Only [set_rudder] and [set_throttle] assign a setpoint: every
    other public call leaves both as they are, [set_rudder] never changes
    the throttle setpoint and [set_throttle] never changes the rudder
    setpoint. *)
Theorem setpoints_assigned_only_by_setters (c : call) (w : World) :
  let w' := snd (perform c w) in
  (is_setter c = false ->
     current_rudder_value (self w') = current_rudder_value (self w) /\
     current_throttle_value (self w') = current_throttle_value (self w)) /\
  (forall v, c = call_set_rudder v ->
     current_throttle_value (self w') = current_throttle_value (self w)) /\
  (forall v, c = call_set_throttle v ->
     current_rudder_value (self w') = current_rudder_value (self w)).
Proof.
  cbv zeta. split; [|split].
  - intros N.
    pose (Q := fun b => current_rudder_value b = current_rudder_value (self w) /\
                        current_throttle_value b = current_throttle_value (self w)).
    enough (K : keeps Q (perform c)) by (apply (K w); split; reflexivity).
    destruct c; try discriminate N; by_method Q.
  - intros v ->.
    pose (Q := fun b => current_throttle_value b = current_throttle_value (self w)).
    enough (K : keeps Q (perform (call_set_rudder v))) by (apply (K w); reflexivity).
    by_method Q.
  - intros v ->.
    pose (Q := fun b => current_rudder_value b = current_rudder_value (self w)).
    enough (K : keeps Q (perform (call_set_throttle v))) by (apply (K w); reflexivity).
    by_method Q.
Qed.

Lemma setpoints_assigned_only_by_setters_witness :
  let w := connected_boat [Some (RC_CHANNELS (Some 1400))] in
  is_setter call_check_rc_mode = false /\
  current_rudder_value (self (snd (perform call_check_rc_mode w))) =
    current_rudder_value (self w).
Proof.
  cbv zeta. split; [reflexivity|].
  apply (proj1 (setpoints_assigned_only_by_setters call_check_rc_mode
                  (connected_boat [Some (RC_CHANNELS (Some 1400))]))).
  reflexivity.
Defined.

(** X7.  Only [arm_vehicle] and [disarm_vehicle] assign the status: every
    other public call, [emergency_stop] and the two propulsion calls
    included, leaves it as it is. *)
Theorem status_assigned_only_by_arming (c : call) (w : World) :
  is_arming c = false ->
  status (self (snd (perform c w))) = status (self w).
Proof.
  intros N.
  pose (Q := fun b => status b = status (self w)).
  enough (K : keeps Q (perform c)) by (apply (K w); reflexivity).
  destruct c; try discriminate N; by_method Q.
Qed.

Lemma status_assigned_only_by_arming_witness :
  let w := connected_boat [] in
  is_arming call_emergency_stop = false /\
  status (self (snd (perform call_emergency_stop w))) = Status.UNDEFINED.
Proof.
  cbv zeta. split; [reflexivity|].
  rewrite (status_assigned_only_by_arming call_emergency_stop (connected_boat []) eq_refl).
  reflexivity.
Defined.

(** X8.  Only [wait_for_heartbeat] and [close_connection] assign the
    connected flag and the heartbeat flag: every other public call leaves
    both as they are. *)
Theorem connection_flags_assigned_only_by_connection (c : call) (w : World) :
  is_connection c = false ->
  connected (self (snd (perform c w))) = connected (self w) /\
  heartbeat_received (self (snd (perform c w))) = heartbeat_received (self w).
Proof.
  intros N.
  pose (Q := fun b => connected b = connected (self w) /\
                      heartbeat_received b = heartbeat_received (self w)).
  enough (K : keeps Q (perform c)) by (apply (K w); split; reflexivity).
  destruct c; try discriminate N; by_method Q.
Qed.

Lemma connection_flags_assigned_only_by_connection_witness :
  let w := connected_boat [] in
  is_connection (call_set_raw_servo 3 1500) = false /\
  connected (self (snd (perform (call_set_raw_servo 3 1500) w))) = true.
Proof.
  cbv zeta. split; [reflexivity|].
  rewrite (proj1 (connection_flags_assigned_only_by_connection
                    (call_set_raw_servo 3 1500) (connected_boat []) eq_refl)).
  reflexivity.
Defined.

(** X9.  With the authority other than UNDEFINED, as it is after
    construction, only [check_rc_mode] polls the mode switch: every other
    public call, the two setters included, leaves the authority and the
    stored channel-11 sample as they are. *)
Theorem authority_assigned_only_by_check_rc_mode (c : call) (w : World) :
  control_authority (self w) <> ControlAuthority.UNDEFINED ->
  c <> call_check_rc_mode ->
  control_authority (self (snd (perform c w))) = control_authority (self w) /\
  rc_channel_11_value (self (snd (perform c w))) = rc_channel_11_value (self w).
Proof.
  intros D N.
  pose (Q := fun b => control_authority b = control_authority (self w) /\
                      rc_channel_11_value b = rc_channel_11_value (self w)).
  enough (K : keeps Q (perform c)) by (apply (K w); split; reflexivity).
  assert (G : forall w0, Q (self w0) ->
                         control_authority (self w0) = ControlAuthority.UNDEFINED ->
                         Q (self (snd (__poll_rc_mode_switch w0)))).
  { intros w0 [A _] U. congruence. }
  destruct c; try congruence;
    first [ by_method Q
          | cbn [perform]; unfold returned;
            apply keeps_bind; [|intros ?; apply keeps_ret];
            first [ apply keeps_set_rudder | apply keeps_set_throttle ];
            first [ exact G | unchanged ] ].
Qed.

Lemma authority_assigned_only_by_check_rc_mode_witness :
  let w := with_authority MANUAL (connected_boat [Some (RC_CHANNELS (Some 1700))]) in
  control_authority (self w) <> ControlAuthority.UNDEFINED /\
  call_set_rudder (PyInt 1600) <> call_check_rc_mode /\
  control_authority (self (snd (perform (call_set_rudder (PyInt 1600)) w))) = MANUAL.
Proof.
  cbv zeta.
  assert (D : MANUAL <> ControlAuthority.UNDEFINED) by discriminate.
  assert (N : call_set_rudder (PyInt 1600) <> call_check_rc_mode) by discriminate.
  split; [exact D|]. split; [exact N|].
  rewrite (proj1 (authority_assigned_only_by_check_rc_mode
                    (call_set_rudder (PyInt 1600))
                    (with_authority MANUAL (connected_boat [Some (RC_CHANNELS (Some 1700))]))
                    D N)).
  reflexivity.
Defined.

(** X10.  Three fields are written by the constructor alone: after any
    sequence of public calls [confirm_commands] is still false and
    [last_command_sent] and [mode_switch] are still None, and the
    connection string and the baud rate are the ones the boat was
    constructed with. *)
Theorem constructor_only_fields
  (cs : string) (bd : Z) (v : Vehicle) (calls : list call) :
  let b := self (run calls (__init__ cs bd v)) in
  confirm_commands b = false /\
  last_command_sent b = None /\
  mode_switch b = None /\
  connection_string b = cs /\
  baud b = bd.
Proof.
  cbv zeta.
  pose (Q := fun b => confirm_commands b = false /\ last_command_sent b = None /\
                      mode_switch b = None /\ connection_string b = cs /\ baud b = bd).
  apply (keeps_run Q); try unchanged.
  - intros w H _. revert H. apply (keeps_poll Q); unchanged.
  - unfold Q. init_cases v; repeat split.
Qed.

(** ** What a setter call does, case by case *)

Lemma gate_and_push_settled said w :
  control_authority (self w) <> ControlAuthority.UNDEFINED ->
  gate_and_push said w =
  (tt, mkWorld (self w) (vehicle w)
         (trace w ++
          Printed (Authority_value (ControlAuthority.value (control_authority (self w))))
          :: if ControlAuthority.eqb (control_authority (self w)) MANUAL
             then [Printed Overriding_RC_channels_currently_disabled]
             else [Printed (Updated_steering (current_rudder_value (self w))
                                             (current_throttle_value (self w)));
                   Sent (override_of (vehicle w) (self w));
                   Printed said])).
Proof.
  intros D. rewrite gate_and_push_run. cbv zeta. rewrite (gate_when_settled w D).
  cbn [fst snd self vehicle trace].
  destruct (ControlAuthority.eqb _ MANUAL); cbn [negb]; rewrite <- app_assoc; reflexivity.
Qed.

(* The setpoints a setter leaves on a connected boat. *)
Lemma setter_setpoints v w :
  connected (self w) = true ->
  let stored old :=
    match PyBuiltin.int v with
    | Some z => if (z >=? 1100) && (z <=? 1900) then z else old
    | None => old
    end in
  (current_rudder_value (self (snd (set_rudder v w))) =
     stored (current_rudder_value (self w)) /\
   current_throttle_value (self (snd (set_rudder v w))) =
     current_throttle_value (self w)) /\
  (current_throttle_value (self (snd (set_throttle v w))) =
     stored (current_throttle_value (self w)) /\
   current_rudder_value (self (snd (set_throttle v w))) =
     current_rudder_value (self w)).
Proof.
  intros C. cbv zeta. rewrite set_rudder_run, set_throttle_run, C, !try_store_eq.
  destruct (PyBuiltin.int v) as [z|]; [|repeat split].
  split.
  - match goal with |- context [gate_and_push ?l ?w0] =>
      destruct (gate_and_push_keeps_setpoints l w0) as [R T] end.
    rewrite R, T. cbn [self].
    destruct ((z >=? 1100) && (z <=? 1900)); split; reflexivity.
  - match goal with |- context [gate_and_push ?l ?w0] =>
      destruct (gate_and_push_keeps_setpoints l w0) as [R T] end.
    rewrite R, T. cbn [self].
    destruct ((z >=? 1100) && (z <=? 1900)); split; reflexivity.
Qed.

Lemma setter_keeps_connected v w :
  connected (self w) = true ->
  connected (self (snd (set_rudder v w))) = true /\
  connected (self (snd (set_throttle v w))) = true.
Proof.
  intros C.
  pose (Q := fun b => connected b = true).
  assert (G : forall w0, Q (self w0) ->
                         control_authority (self w0) = ControlAuthority.UNDEFINED ->
                         Q (self (snd (__poll_rc_mode_switch w0)))).
  { intros w0 H _. revert H. apply (keeps_poll Q); unchanged. }
  split.
  - apply (keeps_set_rudder Q G); [unchanged|exact C].
  - apply (keeps_set_throttle Q G); [unchanged|exact C].
Qed.

(** X11.  A setter called on a boat that is not connected prints that the
    vehicle is not connected and does nothing else: the object and the
    link are as before and nothing is received or sent.  Called on a
    connected boat with a value [int()] raises on, it prints the invalid
    value and does nothing else; [set_throttle] uses the same line as
    [set_rudder], the one about the steering value. *)
Theorem setter_rejections (v : pyval) (w : World) :
  (connected (self w) = false ->
     snd (set_rudder v w) =
       mkWorld (self w) (vehicle w) (trace w ++ [Printed Vehicle_not_connected]) /\
     snd (set_throttle v w) =
       mkWorld (self w) (vehicle w) (trace w ++ [Printed Vehicle_not_connected])) /\
  (connected (self w) = true -> PyBuiltin.int v = None ->
     snd (set_rudder v w) =
       mkWorld (self w) (vehicle w) (trace w ++ [Printed (Invalid_steering_value v)]) /\
     snd (set_throttle v w) =
       mkWorld (self w) (vehicle w) (trace w ++ [Printed (Invalid_steering_value v)])).
Proof.
  split.
  - intros C. destruct (setter_not_connected v w C) as [-> ->]. split; reflexivity.
  - intros C E. destruct (setter_not_coercible v w C E) as [-> ->]. split; reflexivity.
Qed.

Lemma setter_rejections_witness :
  connected (self (constructed [])) = false /\
  sent (snd (set_rudder (PyInt 1600) (constructed []))) = [] /\
  connected (self (connected_boat [])) = true /\
  PyBuiltin.int (PyObject None) = None /\
  current_throttle_value (self (snd (set_throttle (PyObject None) (connected_boat []))))
    = 1500.
Proof.
  split; [reflexivity|]. split.
  - rewrite (proj1 (proj1 (setter_rejections (PyInt 1600) (constructed [])) eq_refl)).
    reflexivity.
  - split; [reflexivity|]. split; [reflexivity|].
    rewrite (proj2 (proj2 (setter_rejections (PyObject None) (connected_boat []))
                      eq_refl eq_refl)).
    reflexivity.
Defined.

(** X12.  On a connected boat under REMOTE or AUTOMATIC, a setter handed
    a value that coerces to an integer [z] within [1100,1900] stores [z],
    reads no telemetry, and sends exactly one override: [set_rudder] sends
    (z, throttle, throttle, 0, 0, 0, 0, 0) and [set_throttle] sends
    (rudder, z, z, 0, 0, 0, 0, 0), the other setpoint being the stored
    one. *)
Theorem accepted_setter_sends_override (v : pyval) (z : Z) (w : World) :
  connected (self w) = true ->
  PyBuiltin.int v = Some z ->
  accepted z ->
  control_authority (self w) = REMOTE \/ control_authority (self w) = AUTOMATIC ->
  let ts := target_system (vehicle w) in
  let tc := target_component (vehicle w) in
  let r := current_rudder_value (self w) in
  let t := current_throttle_value (self w) in
  let a := ControlAuthority.value (control_authority (self w)) in
  snd (set_rudder v w) =
    mkWorld (set_current_rudder_value z (self w)) (vehicle w)
      (trace w ++ [Printed (Authority_value a);
                   Printed (Updated_steering z t);
                   Sent (RC_CHANNELS_OVERRIDE ts tc [z; t; t; 0; 0; 0; 0; 0]);
                   Printed (Steering_set_to v)]) /\
  snd (set_throttle v w) =
    mkWorld (set_current_throttle_value z (self w)) (vehicle w)
      (trace w ++ [Printed (Authority_value a);
                   Printed (Updated_steering r z);
                   Sent (RC_CHANNELS_OVERRIDE ts tc [r; z; z; 0; 0; 0; 0; 0]);
                   Printed (Throttle_set_to v)]).
Proof.
  intros C E A R. cbv zeta.
  rewrite set_rudder_run, set_throttle_run, C, !try_store_eq, E.
  apply band_test in A. rewrite A.
  rewrite !gate_and_push_settled
    by (cbn [self set_current_rudder_value set_current_throttle_value control_authority];
        destruct R as [R|R]; rewrite R; discriminate).
  cbn [snd self vehicle trace set_current_rudder_value set_current_throttle_value
       control_authority current_rudder_value current_throttle_value override_of].
  destruct R as [R|R]; rewrite R; cbn [ControlAuthority.eqb]; split; reflexivity.
Qed.

Lemma accepted_setter_sends_override_witness :
  let w := connected_boat [] in
  connected (self w) = true /\
  PyBuiltin.int (PyObject (Some 1700)) = Some 1700 /\
  accepted 1700 /\
  control_authority (self w) = REMOTE /\
  sent (snd (set_throttle (PyObject (Some 1700)) w)) =
    [RC_CHANNELS_OVERRIDE 1 0 [1500; 1700; 1700; 0; 0; 0; 0; 0]].
Proof.
  cbv zeta.
  assert (A : accepted 1700) by (unfold accepted; lia).
  split; [reflexivity|]. split; [reflexivity|]. split; [exact A|]. split; [reflexivity|].
  rewrite (proj2 (accepted_setter_sends_override (PyObject (Some 1700)) 1700 (connected_boat [])
                    eq_refl eq_refl A (or_introl eq_refl))).
  reflexivity.
Defined.

(** X13.  On a connected boat under MANUAL a setter stores an accepted
    value and transmits nothing: it reads no telemetry, sends no packet,
    and prints that overriding is disabled. *)
Theorem manual_setter_stores_without_sending (v : pyval) (z : Z) (w : World) :
  connected (self w) = true ->
  PyBuiltin.int v = Some z ->
  accepted z ->
  control_authority (self w) = MANUAL ->
  snd (set_rudder v w) =
    mkWorld (set_current_rudder_value z (self w)) (vehicle w)
      (trace w ++ [Printed (Authority_value 0);
                   Printed Overriding_RC_channels_currently_disabled]) /\
  snd (set_throttle v w) =
    mkWorld (set_current_throttle_value z (self w)) (vehicle w)
      (trace w ++ [Printed (Authority_value 0);
                   Printed Overriding_RC_channels_currently_disabled]) /\
  sent (snd (set_rudder v w)) = sent w /\
  sent (snd (set_throttle v w)) = sent w.
Proof.
  intros C E A Mn.
  assert (R : snd (set_rudder v w) =
              mkWorld (set_current_rudder_value z (self w)) (vehicle w)
                (trace w ++ [Printed (Authority_value 0);
                             Printed Overriding_RC_channels_currently_disabled]) /\
              snd (set_throttle v w) =
              mkWorld (set_current_throttle_value z (self w)) (vehicle w)
                (trace w ++ [Printed (Authority_value 0);
                             Printed Overriding_RC_channels_currently_disabled])).
  { rewrite set_rudder_run, set_throttle_run, C, !try_store_eq, E.
    apply band_test in A. rewrite A.
    rewrite !gate_and_push_settled
      by (cbn [self set_current_rudder_value set_current_throttle_value control_authority];
          rewrite Mn; discriminate).
    cbn [snd self vehicle trace set_current_rudder_value set_current_throttle_value
         control_authority].
    rewrite Mn. cbn [ControlAuthority.eqb ControlAuthority.value]. split; reflexivity. }
  destruct R as [R T]. split; [exact R|]. split; [exact T|].
  rewrite R, T. unfold sent. cbn [trace]. rewrite sent_in_app. cbn.
  rewrite app_nil_r. split; reflexivity.
Qed.

Lemma manual_setter_stores_without_sending_witness :
  let w := with_authority MANUAL (connected_boat []) in
  connected (self w) = true /\
  PyBuiltin.int (PyInt 1100) = Some 1100 /\
  accepted 1100 /\
  control_authority (self w) = MANUAL /\
  current_rudder_value (self (snd (set_rudder (PyInt 1100) w))) = 1100 /\
  sent (snd (set_rudder (PyInt 1100) w)) = sent w.
Proof.
  cbv zeta.
  assert (A : accepted 1100) by (unfold accepted; lia).
  split; [reflexivity|]. split; [reflexivity|]. split; [exact A|]. split; [reflexivity|].
  pose proof (manual_setter_stores_without_sending (PyInt 1100) 1100
                (with_authority MANUAL (connected_boat [])) eq_refl eq_refl A eq_refl)
    as (R & _ & S & _).
  split; [rewrite R; reflexivity|exact S].
Defined.

(** X14.  On a connected boat, whatever the authority: after a rudder
    call with an accepted [x] and a throttle call with an accepted [y], in
    either order, the stored setpoints are [x] and [y]; and of two rudder
    calls with accepted values the later one is the one stored. *)
Theorem setters_compose (a b a' : pyval) (x y x' : Z) (w : World) :
  connected (self w) = true ->
  PyBuiltin.int a = Some x -> accepted x ->
  PyBuiltin.int b = Some y -> accepted y ->
  PyBuiltin.int a' = Some x' -> accepted x' ->
  let rt := self (snd (set_throttle b (snd (set_rudder a w)))) in
  let tr := self (snd (set_rudder a (snd (set_throttle b w)))) in
  let rr := self (snd (set_rudder a' (snd (set_rudder a w)))) in
  (current_rudder_value rt = x /\ current_throttle_value rt = y) /\
  (current_rudder_value tr = x /\ current_throttle_value tr = y) /\
  (current_rudder_value rr = x' /\
   current_throttle_value rr = current_throttle_value (self w)).
Proof.
  intros C Ea Aa Eb Ab Ea' Aa'. cbv zeta.
  apply band_test in Aa, Ab, Aa'.
  destruct (setter_keeps_connected a w C) as [Cr _].
  destruct (setter_keeps_connected b w C) as [_ Ct].
  pose proof (setter_setpoints a w C) as Sa. cbv zeta in Sa. rewrite Ea, Aa in Sa.
  pose proof (setter_setpoints b w C) as Sb. cbv zeta in Sb. rewrite Eb, Ab in Sb.
  destruct Sa as [[Sa1 Sa2] _]. destruct Sb as [_ [Sb1 Sb2]].
  split; [|split].
  - pose proof (setter_setpoints b _ Cr) as S. cbv zeta in S. rewrite Eb, Ab in S.
    destruct S as [_ [S1 S2]]. rewrite S1, S2. split; [exact Sa1|reflexivity].
  - pose proof (setter_setpoints a _ Ct) as S. cbv zeta in S. rewrite Ea, Aa in S.
    destruct S as [[S1 S2] _]. rewrite S1, S2. split; [reflexivity|exact Sb1].
  - pose proof (setter_setpoints a' _ Cr) as S. cbv zeta in S. rewrite Ea', Aa' in S.
    destruct S as [[S1 S2] _]. rewrite S1, S2. split; [reflexivity|exact Sa2].
Qed.

Lemma setters_compose_witness :
  let w := connected_boat [] in
  let rt := self (snd (set_throttle (PyInt 1200) (snd (set_rudder (PyInt 1800) w)))) in
  connected (self w) = true /\
  current_rudder_value rt = 1800 /\ current_throttle_value rt = 1200.
Proof.
  cbv zeta. split; [reflexivity|].
  assert (A1 : accepted 1800) by (unfold accepted; lia).
  assert (A2 : accepted 1200) by (unfold accepted; lia).
  exact (proj1 (setters_compose (PyInt 1800) (PyInt 1200) (PyInt 1800) 1800 1200 1800
                  (connected_boat []) eq_refl eq_refl A1 eq_refl A2 eq_refl A1)).
Defined.

(** ** The keep-alive call *)

Lemma poll_world_parts w :
  let w' := snd (__poll_rc_mode_switch w) in
  vehicle w' = vehicle (snd (recv_match RC_CHANNELS_t w)) /\
  sent w' = sent w.
Proof.
  cbv zeta. rewrite poll_rc_mode_switch_run. cbv zeta. unfold sent.
  assert (S : forall tr, sent_in tr = [] ->
                sent_in (trace (snd (recv_match RC_CHANNELS_t w)) ++ tr)
                = sent_in (trace w)).
  { intros tr E. rewrite recv_match_trace, !sent_in_app, E. cbn. rewrite !app_nil_r.
    reflexivity. }
  destruct (next_rc_message w) as [m|]; cbn [snd].
  - destruct (chan11_of m) as [v|];
      [destruct (v >? 1500);
       [destruct (ControlAuthority.eqb _ REMOTE)
       |destruct (v <? 1500); [destruct (ControlAuthority.eqb _ MANUAL)|]]|];
      cbn [snd vehicle trace]; rewrite <- ?app_assoc, S by reflexivity;
      split; reflexivity.
  - split; [reflexivity|]. rewrite <- (app_nil_r (trace _)). apply S. reflexivity.
Qed.

(* The override built after a poll carries the setpoints stored before it
   and the addressing the poll's receive leaves. *)
Lemma override_after_poll w :
  let w' := snd (__poll_rc_mode_switch w) in
  override_of (vehicle w') (self w') = override_of (after_receive (vehicle w)) (self w).
Proof.
  cbv zeta. destruct (poll_world_parts w) as [V _].
  destruct (poll_keeps_setpoints w) as [R T].
  unfold override_of. rewrite V, R, T. reflexivity.
Qed.

Lemma check_rc_mode_settled w :
  control_authority (self (snd (__poll_rc_mode_switch w))) <> ControlAuthority.UNDEFINED ->
  check_rc_mode w =
  let w1 := snd (__poll_rc_mode_switch w) in
  let a := control_authority (self w1) in
  (tt, mkWorld (self w1) (vehicle w1)
         (trace w1 ++
          Printed (Authority_value (ControlAuthority.value a))
          :: if ControlAuthority.eqb a MANUAL then []
             else [Printed Should_allow_rc_override;
                   Printed (Updated_steering (current_rudder_value (self w1))
                                             (current_throttle_value (self w1)));
                   Sent (override_of (vehicle w1) (self w1))])).
Proof.
  intros D. unfold check_rc_mode, __keep_alive_rc_override. unfold bind at 1.
  destruct (__poll_rc_mode_switch w) as [[] w1]. cbn [snd] in *. cbv zeta.
  unfold bind at 1. rewrite (gate_when_settled w1 D).
  destruct (ControlAuthority.eqb _ MANUAL); cbn [negb].
  - unfold ret. destruct w1; reflexivity.
  - unfold bind at 1, print at 1, log at 1. cbn [self vehicle trace].
    rewrite update_steering_run. cbn [self vehicle trace].
    rewrite <- !app_assoc. reflexivity.
Qed.

(** X15.  [check_rc_mode] on a boat whose authority is not UNDEFINED
    makes exactly one poll, which uses up one receive window, and leaves
    the authority that poll decides: REMOTE for a channel-11 value above
    1500, MANUAL for one below, the authority before otherwise.  Unless
    that authority is MANUAL it then sends one override carrying the stored
    setpoints, addressed as the connection object is after the poll's
    receive; under MANUAL it sends nothing.  The setpoints are never
    changed. *)
Theorem check_rc_mode_keeps_alive (w : World) :
  control_authority (self w) <> ControlAuthority.UNDEFINED ->
  let w' := snd (check_rc_mode w) in
  let a' := match next_chan11 w with
            | Some v => if v >? 1500 then REMOTE
                        else if v <? 1500 then MANUAL
                        else control_authority (self w)
            | None => control_authority (self w)
            end in
  control_authority (self w') = a' /\
  polls w' = S (polls w) /\
  vehicle w' = after_receive (vehicle w) /\
  telemetry (vehicle w') = tl (telemetry (vehicle w)) /\
  sent w' = sent w ++ (if ControlAuthority.eqb a' MANUAL then []
                       else [override_of (after_receive (vehicle w)) (self w)]) /\
  current_rudder_value (self w') = current_rudder_value (self w) /\
  current_throttle_value (self w') = current_throttle_value (self w).
Proof.
  intros D. cbv zeta. rewrite <- poll_authority.
  assert (D1 : control_authority (self (snd (__poll_rc_mode_switch w)))
               <> ControlAuthority.UNDEFINED).
  { rewrite poll_authority. destruct (next_chan11 w) as [v|]; [|exact D].
    destruct (v >? 1500); [discriminate|]. destruct (v <? 1500); [discriminate|exact D]. }
  rewrite (check_rc_mode_settled w D1). cbv zeta. cbn [snd self vehicle trace].
  destruct (poll_world_parts w) as [V S]. destruct (poll_keeps_setpoints w) as [R T].
  pose proof (poll_polls w) as P. pose proof (override_after_poll w) as O.
  cbv zeta in O. rewrite O. unfold polls, sent in *. cbn [trace].
  split; [reflexivity|].
  split; [|split; [exact V|split; [rewrite V; apply after_receive_telemetry
                                  |split; [|split; assumption]]]].
  - change (?x :: ?l) with ([x] ++ l). rewrite !polls_in_app, P.
    destruct (ControlAuthority.eqb _ MANUAL); cbn; lia.
  - change (?x :: ?l) with ([x] ++ l). rewrite !sent_in_app, S.
    destruct (ControlAuthority.eqb _ MANUAL); reflexivity.
Qed.

Lemma check_rc_mode_keeps_alive_witness :
  let w := connected_boat [Some (RC_CHANNELS (Some 1400)); Some (RC_CHANNELS (Some 1600))] in
  control_authority (self w) <> ControlAuthority.UNDEFINED /\
  control_authority (self (snd (check_rc_mode w))) = MANUAL /\
  sent (snd (check_rc_mode w)) = sent w.
Proof.
  cbv zeta.
  assert (D : control_authority
                (self (connected_boat [Some (RC_CHANNELS (Some 1400));
                                       Some (RC_CHANNELS (Some 1600))]))
              <> ControlAuthority.UNDEFINED) by discriminate.
  split; [exact D|].
  pose proof (check_rc_mode_keeps_alive _ D) as H. cbv zeta in H.
  destruct H as (A & _ & _ & _ & S & _).
  split; [rewrite A; reflexivity|]. rewrite S. reflexivity.
Defined.

(** ** Reading the armed flag *)

Lemma armed_flag_is_bit_7 bm :
  (Z.land bm MAV_MODE_FLAG_SAFETY_ARMED =? 0) = negb (Z.testbit bm 7).
Proof.
  unfold MAV_MODE_FLAG_SAFETY_ARMED. change 128 with (2 ^ 7).
  destruct (Z.testbit bm 7) eqn:B; cbn [negb].
  - apply Z.eqb_neq. intros H.
    apply (f_equal (fun x => Z.testbit x 7)) in H.
    rewrite Z.land_spec, B, Z.pow2_bits_true, Z.bits_0 in H by lia. discriminate H.
  - apply Z.eqb_eq. apply Z.bits_inj'. intros n Hn.
    rewrite Z.land_spec, Z.bits_0.
    destruct (Z.eq_dec n 7) as [->|N]; [rewrite B; reflexivity|].
    rewrite Z.pow2_bits_false by lia. apply andb_false_r.
Qed.

(** X16.  [is_armed] answers true exactly when its receive yields a
    heartbeat whose [base_mode] has bit 7 set, whatever the other bits
    are; it uses up one receive window, sends nothing and leaves the
    object as it is. *)
Theorem is_armed_reads_bit_7 (w : World) :
  let r := is_armed w in
  (fst r = true <->
   exists bm cm, next_heartbeat w = Some (HEARTBEAT bm cm) /\ Z.testbit bm 7 = true) /\
  self (snd r) = self w /\
  sent (snd r) = sent w /\
  telemetry (vehicle (snd r)) = tl (telemetry (vehicle w)).
Proof.
  cbv zeta. rewrite is_armed_run. cbv zeta. cbn [fst snd self vehicle].
  split; [|split; [reflexivity|split; [|apply (recv_match_telemetry HEARTBEAT_t)]]].
  - destruct (next_heartbeat w) as [[bm cm|c]|]; cbn [armed_answer shows_armed].
    + rewrite armed_flag_is_bit_7, negb_involutive. split.
      * intros B. exists bm, cm. split; [reflexivity|exact B].
      * intros (bm' & cm' & E & B). injection E as <- <-. exact B.
    + split; [discriminate|]. intros (bm & cm & E & _). discriminate E.
    + split; [discriminate|]. intros (bm & cm & E & _). discriminate E.
  - unfold sent. cbn [trace]. rewrite recv_match_trace, !sent_in_app.
    destruct (next_heartbeat w); cbn; rewrite !app_nil_r; reflexivity.
Qed.

(** ** After the connection is closed *)

(** X17.  [close_connection] clears the connected flag and sends
    nothing.  On the boat it leaves, [set_rudder], [set_throttle] and
    [set_raw_servo] only print that the vehicle is not connected; the
    relay and arming calls have no such guard and still hand their command
    to the link. *)
Theorem closed_boat_ignores_setpoints (v : pyval) (n p : Z) (w : World) :
  let w1 := snd (close_connection w) in
  let refused := mkWorld (self w1) (vehicle w1)
                         (trace w1 ++ [Printed Vehicle_not_connected]) in
  self w1 = set_connected false (self w) /\
  sent w1 = sent w /\
  snd (set_rudder v w1) = refused /\
  snd (set_throttle v w1) = refused /\
  snd (set_raw_servo n p w1) = refused /\
  sent (snd (disable_propulsion w1)) = sent w1 ++ [relay_command (vehicle w1) 1 0] /\
  sent (snd (enable_propulsion w1)) = sent w1 ++ [relay_command (vehicle w1) 1 1] /\
  sent (snd (arm_vehicle w1)) = sent w1 ++ [arm_command (vehicle w1) 1].
Proof.
  cbv zeta.
  assert (C : connected (self (snd (close_connection w))) = false) by reflexivity.
  destruct (setter_not_connected v _ C) as [R T].
  split; [reflexivity|]. split.
  { unfold sent, close_connection. unmonad. rewrite !sent_in_app. cbn.
    rewrite !app_nil_r. reflexivity. }
  split; [rewrite R; reflexivity|]. split; [rewrite T; reflexivity|].
  split; [rewrite set_raw_servo_run, C; reflexivity|].
  split; [|split].
  - unfold sent, disable_propulsion, set_relay_off, relay_command. unmonad.
    rewrite !sent_in_app. cbn. rewrite !app_nil_r. reflexivity.
  - unfold sent, enable_propulsion, set_relay_on, relay_command. unmonad.
    rewrite !sent_in_app. cbn. rewrite !app_nil_r. reflexivity.
  - rewrite arm_vehicle_run. cbv zeta. unfold sent.
    destruct (next_heartbeat (snd (close_connection w))) as [m|];
      [destruct (armed_answer (Some m))|];
      cbn [armed_answer armed_lines snd trace]; rewrite !sent_in_app; cbn;
      rewrite ?app_nil_r; reflexivity.
Qed.

(** ** The bounds of the raw servo output *)

(** X18.  On a connected boat [set_raw_servo] sends 1000 for every value
    below 1000, 2000 for every value above 2000, and the value itself for
    every value in between, bounds included. *)
Theorem set_raw_servo_saturates (n p : Z) (w : World) :
  connected (self w) = true ->
  let out := sent (snd (set_raw_servo n p w)) in
  (p < 1000 -> out = sent w ++ [servo_command (vehicle w) n 1000]) /\
  (1000 <= p <= 2000 -> out = sent w ++ [servo_command (vehicle w) n p]) /\
  (2000 < p -> out = sent w ++ [servo_command (vehicle w) n 2000]).
Proof.
  intros C. cbv zeta. rewrite sent_set_raw_servo, C. unfold servo_command, clamp.
  split; [|split]; intros H.
  - replace (Z.max 1000 (Z.min p 2000)) with 1000 by lia. reflexivity.
  - replace (Z.max 1000 (Z.min p 2000)) with p by lia. reflexivity.
  - replace (Z.max 1000 (Z.min p 2000)) with 2000 by lia. reflexivity.
Qed.

Lemma set_raw_servo_saturates_witness :
  let w := connected_boat [] in
  connected (self w) = true /\
  sent (snd (set_raw_servo 1 999 w)) = [servo_command (vehicle w) 1 1000] /\
  sent (snd (set_raw_servo 1 1000 w)) = [servo_command (vehicle w) 1 1000] /\
  sent (snd (set_raw_servo 1 2000 w)) = [servo_command (vehicle w) 1 2000] /\
  sent (snd (set_raw_servo 1 2001 w)) = [servo_command (vehicle w) 1 2000].
Proof.
  cbv zeta. split; [reflexivity|].
  split; [apply (proj1 (set_raw_servo_saturates 1 999 (connected_boat []) eq_refl)); lia|].
  split; [apply (proj1 (proj2 (set_raw_servo_saturates 1 1000 (connected_boat []) eq_refl)));
          lia|].
  split; [apply (proj1 (proj2 (set_raw_servo_saturates 1 2000 (connected_boat []) eq_refl)));
          lia|].
  apply (proj2 (proj2 (set_raw_servo_saturates 1 2001 (connected_boat []) eq_refl))); lia.
Defined.

(** ** What a call hands to the link and takes from it *)

Lemma get_flight_mode_run w :
  get_flight_mode w =
  let hb := next_heartbeat w in
  let w1 := snd (recv_match HEARTBEAT_t w) in
  (match hb with
   | Some (HEARTBEAT _ mode_id) => Some mode_id
   | _ => None
   end,
   mkWorld (self w) (vehicle w1) (trace w1 ++ armed_lines hb)).
Proof.
  unfold get_flight_mode, next_heartbeat. unfold bind at 1.
  destruct (recv_match HEARTBEAT_t w) as [[m|] w1] eqn:E; cbv zeta; cbn [fst snd].
  - assert (self w1 = self w) as S.
    { unfold recv_match in E. inversion E. reflexivity. }
    destruct m as [bm cm|c]; unfold ret; cbn [armed_lines];
      rewrite app_nil_r, <- S; destruct w1; reflexivity.
  - assert (S : self w1 = self w).
    { unfold recv_match in E. inversion E. reflexivity. }
    unmonad. rewrite S. reflexivity.
Qed.

Lemma sent_gate w : sent (snd (__should_allow_rc_override w)) = sent w.
Proof.
  rewrite should_allow_rc_override_run. cbv zeta. unfold sent. cbn [snd trace].
  rewrite sent_in_app. cbn. rewrite app_nil_r.
  unfold decision_world. destruct (ControlAuthority.eqb _ _); [|reflexivity].
  apply (proj2 (poll_world_parts w)).
Qed.

Lemma sent_gate_and_push said w :
  exists new, sent (snd (gate_and_push said w)) = sent w ++ new /\
              (List.length new <= 1)%nat.
Proof.
  rewrite gate_and_push_run. cbv zeta. unfold sent. cbn [snd trace].
  rewrite sent_in_app. fold (sent (snd (__should_allow_rc_override w))).
  rewrite sent_gate.
  destruct (fst (__should_allow_rc_override w)); cbn [sent_in];
    eexists; (split; [reflexivity|cbn; lia]).
Qed.

Lemma sent_check_rc_mode w :
  exists new, sent (snd (check_rc_mode w)) = sent w ++ new /\
              (List.length new <= 1)%nat.
Proof.
  unfold check_rc_mode, __keep_alive_rc_override. unfold bind at 1.
  pose proof (proj2 (poll_world_parts w)) as P. cbv zeta in P.
  destruct (__poll_rc_mode_switch w) as [[] w1]. cbn [snd] in P.
  unfold bind at 1. pose proof (sent_gate w1) as G.
  destruct (__should_allow_rc_override w1) as [[|] w2]; cbn [snd] in G.
  - unfold bind at 1, print at 1, log at 1. rewrite update_steering_run.
    unfold sent in *. cbn [snd self vehicle trace].
    rewrite <- app_assoc, sent_in_app, G, P. cbn [app sent_in].
    eexists. split; [reflexivity|cbn; lia].
  - exists []. unfold ret. cbn [snd]. rewrite G, P, app_nil_r. split; [reflexivity|cbn; lia].
Qed.

Lemma sent_print l w : sent (snd (print l w)) = sent w.
Proof. unfold sent. unmonad. rewrite sent_in_app. cbn. apply app_nil_r. Qed.

Lemma sent_setter v w :
  (exists new, sent (snd (set_rudder v w)) = sent w ++ new /\ (List.length new <= 1)%nat) /\
  (exists new, sent (snd (set_throttle v w)) = sent w ++ new /\ (List.length new <= 1)%nat).
Proof.
  rewrite set_rudder_run, set_throttle_run.
  assert (N : forall l, exists new, sent (snd (print l w)) = sent w ++ new /\
                                    (List.length new <= 1)%nat).
  { intros l. exists []. rewrite sent_print, app_nil_r. split; [reflexivity|cbn; lia]. }
  destruct (connected (self w)); [|split; apply N].
  split.
  - destruct (try_store _ _ _) as [b'|]; [|apply N].
    apply (sent_gate_and_push _ (mkWorld b' (vehicle w) (trace w))).
  - destruct (try_store _ _ _) as [b'|]; [|apply N].
    apply (sent_gate_and_push _ (mkWorld b' (vehicle w) (trace w))).
Qed.

(* Gather what a straight-line method appended to the trace. *)
Ltac appended :=
  unfold sent; unmonad; rewrite <- ?app_assoc; cbn [app];
  first
    [ rewrite sent_in_app; cbn [sent_in];
      eexists; split; [reflexivity|split; [cbn; lia|first [discriminate|reflexivity]]]
    | exists []; split; [rewrite app_nil_r; reflexivity|split; [cbn; lia|reflexivity]] ].

(** X19.  The packets handed to the link only ever grow at the end, and
    by at most one packet per public call.  [is_armed], [get_flight_mode],
    [wait_for_heartbeat], [close_connection], [set_speed],
    [change_heading] and [set_throttle_differential] hand over none. *)
Theorem call_sends_at_most_one_packet (c : call) (w : World) :
  exists new,
    sent (snd (perform c w)) = sent w ++ new /\
    (List.length new <= 1)%nat /\
    (sends_nothing c = true -> new = []).
Proof.
  destruct c; cbn [perform]; try (unfold returned; unfold bind at 1).
  - destruct (sent_check_rc_mode w) as (new & E & L).
    destruct (check_rc_mode w) as [[] w1]. exists new. repeat split; [exact E|exact L|discriminate].
  - rewrite wait_for_heartbeat_run. cbv zeta.
    destruct (wait_heartbeat _ _ _) as [[m|] v']; cbn [snd]; appended.
  - rewrite arm_vehicle_run. cbv zeta.
    destruct (next_heartbeat w) as [m|]; [destruct (armed_answer (Some m))|];
      cbn [armed_answer armed_lines snd]; appended.
  - rewrite disarm_vehicle_run. cbv zeta.
    destruct (next_heartbeat w) as [m|]; [destruct (armed_answer (Some m))|];
      cbn [armed_answer armed_lines snd]; appended.
  - rewrite is_armed_run. cbv zeta. rewrite recv_match_trace.
    destruct (next_heartbeat w) as [m|]; cbn [armed_lines snd]; appended.
  - unfold set_speed. appended.
  - unfold change_heading. appended.
  - unfold close_connection. appended.
  - unfold set_relay_on. appended.
  - unfold set_relay_off. appended.
  - unfold emergency_stop, disable_propulsion, set_relay_off. appended.
  - unfold disable_propulsion, set_relay_off. appended.
  - unfold enable_propulsion, set_relay_on. appended.
  - destruct (proj1 (sent_setter steering_value w)) as (new & E & L).
    destruct (set_rudder steering_value w) as [[] w1].
    exists new. repeat split; [exact E|exact L|discriminate].
  - destruct (proj2 (sent_setter throttle_value w)) as (new & E & L).
    destruct (set_throttle throttle_value w) as [[] w1].
    exists new. repeat split; [exact E|exact L|discriminate].
  - unfold set_throttle_differential. appended.
  - rewrite set_raw_servo_run. destruct (connected (self w)); appended.
  - rewrite get_flight_mode_run. cbv zeta. rewrite recv_match_trace.
    destruct (next_heartbeat w) as [m|]; cbn [armed_lines snd]; appended.
Qed.

Lemma setter_vehicle_settled v w :
  control_authority (self w) <> ControlAuthority.UNDEFINED ->
  vehicle (snd (set_rudder v w)) = vehicle w /\
  vehicle (snd (set_throttle v w)) = vehicle w.
Proof.
  intros D. rewrite set_rudder_run, set_throttle_run, !try_store_eq.
  destruct (connected (self w)); [|split; reflexivity].
  destruct (PyBuiltin.int v) as [z|]; [|split; reflexivity].
  rewrite !gate_and_push_settled
    by (cbn [self]; destruct ((z >=? 1100) && (z <=? 1900)); exact D).
  split; reflexivity.
Qed.

(** X20.  The relay, propulsion and raw-servo calls, [set_speed],
    [change_heading] and [set_throttle_differential] make no receive: the
    connection object, its pending receive windows and its addressing, is
    left as it is.  [arm_vehicle], [disarm_vehicle], [is_armed] and
    [get_flight_mode] use up exactly one receive window, and leave the
    connection object as that one receive leaves it.  With the authority
    other than UNDEFINED the two setters make no receive either. *)
Theorem telemetry_use (c : call) (w : World) :
  let v' := vehicle (snd (perform c w)) in
  (reads_no_telemetry c = true -> v' = vehicle w) /\
  (reads_one_heartbeat c = true ->
     v' = after_receive (vehicle w) /\
     telemetry v' = tl (telemetry (vehicle w))) /\
  (is_setter c = true ->
     control_authority (self w) <> ControlAuthority.UNDEFINED -> v' = vehicle w).
Proof.
  cbv zeta. split; [|split].
  - intros N. destruct c; try discriminate N; cbn [perform];
      try (unfold returned; unfold bind at 1);
      try rewrite set_raw_servo_run;
      try destruct (connected (self w));
      unfold set_speed, change_heading, set_relay_on, set_relay_off,
        emergency_stop, disable_propulsion, enable_propulsion, set_throttle_differential;
      unmonad; reflexivity.
  - intros N.
    enough (V : vehicle (snd (perform c w)) = after_receive (vehicle w))
      by (split; [exact V|rewrite V; apply after_receive_telemetry]).
    destruct c; try discriminate N; cbn [perform];
      unfold returned; unfold bind at 1.
    + rewrite arm_vehicle_run. cbv zeta. destruct (armed_answer _); reflexivity.
    + rewrite disarm_vehicle_run. cbv zeta. destruct (armed_answer _); reflexivity.
    + rewrite is_armed_run. reflexivity.
    + rewrite get_flight_mode_run. reflexivity.
  - intros N D. destruct (setter_vehicle_settled
                            match c with
                            | call_set_rudder x | call_set_throttle x => x
                            | _ => PyObject None
                            end w D) as [R T].
    destruct c; try discriminate N; cbn [perform]; unfold returned; unfold bind at 1.
    + destruct (set_rudder steering_value w) as [[] w1]. exact R.
    + destruct (set_throttle throttle_value w) as [[] w1]. exact T.
Qed.

Lemma telemetry_use_witness :
  let w := connected_boat [Some (HEARTBEAT 128 0); Some (RC_CHANNELS (Some 1400))] in
  reads_no_telemetry call_emergency_stop = true /\
  telemetry (vehicle (snd (perform call_emergency_stop w))) = telemetry (vehicle w) /\
  reads_one_heartbeat call_arm_vehicle = true /\
  telemetry (vehicle (snd (perform call_arm_vehicle w))) =
    [mkWindow (Some (RC_CHANNELS (Some 1400))) 1 0].
Proof.
  cbv zeta. split; [reflexivity|]. split.
  - rewrite (proj1 (telemetry_use call_emergency_stop
       (connected_boat [Some (HEARTBEAT 128 0); Some (RC_CHANNELS (Some 1400))])) eq_refl).
    reflexivity.
  - split; [reflexivity|].
    rewrite (proj1 (proj1 (proj2 (telemetry_use call_arm_vehicle
       (connected_boat [Some (HEARTBEAT 128 0); Some (RC_CHANNELS (Some 1400))]))) eq_refl)).
    reflexivity.
Defined.
